(** * A verification model of the ISO 8583 connection client (client.go)

    The client multiplexes request/reply exchanges over one TCP
    connection.  Replies are matched to requests through the STAN
    (field 11) of the message.  The development follows the layout of
    the source file:

    - [error], [Iso8583]: Go error values and the two collaborators the
      client calls into (github.com/moov-io/iso8583 and its network
      package), taken as an interface;
    - [Scope]: the lexical scoping of the variable [err] in [readLoop];
    - [Fmt]: [fmt.Sprintf("%06d", n)];
    - the functions of client.go, one definition each, as state passing
      over the [Client] struct;
    - [sys_step]: the goroutines of one connected client (callers of
      [Send], [writeLoop], [readLoop], callers of [Close]) interleaved at
      the granularity of their shared-memory and channel operations. *)

From Stdlib Require Import ZArith Lia List Ascii String.
From stdpp Require Import base option list gmap strings.

Local Open Scope Z_scope.

(** ** Go error values *)

(** [ErrConnectionClosed] is the package-level sentinel
    [errors.New("connection closed")]; every other error value is
    identified by its message. *)
Inductive error : Type :=
| ErrConnectionClosed
| errorString (msg : string).

#[global] Instance error_eq_dec : EqDecision error.
Proof. solve_decision. Defined.

(** [err.Error()] *)
Definition Error (e : error) : string :=
  match e with
  | ErrConnectionClosed => "connection closed"
  | errorString msg => msg
  end.

(** [fmt.Errorf(prefix + "%v", err)]: a new error value whose message is
    the prefix followed by the message of [err]. *)
Definition Errorf (prefix : string) (e : error) : error :=
  errorString (prefix +:+ Error e).

(** ** Lexical scoping of one variable name *)

(** [readLoop] declares [err] twice: once in the function body and once
    in the body of its [for] loop.  An environment lists, innermost
    block first, what each enclosing block holds for the name: [None]
    when the block does not declare it, [Some v] when it does. *)
Module Scope.

Definition env (V : Type) : Type := list (option V).

(** Entering and leaving a block. *)
Definition enter {V} (rho : env V) : env V := None :: rho.
Definition leave {V} (rho : env V) : env V := tail rho.

(** [var x T = v], and [x := v] or [y, x := ...] in a block that
    already declares [x], where the short declaration assigns: in
    every case the current block holds [x] with value [v] afterwards.
    A short declaration in a block that does not declare [x] yet makes
    a new variable there, whatever the enclosing blocks declare. *)
Definition declare {V} (v : V) (rho : env V) : env V :=
  match rho with
  | [] => [Some v]
  | _ :: outer => Some v :: outer
  end.

(** [x = v]: assigns the innermost declaration in sight. *)
Fixpoint assign {V} (v : V) (rho : env V) : env V :=
  match rho with
  | [] => []
  | Some _ :: outer => Some v :: outer
  | None :: outer => None :: assign v outer
  end.

(** The value of [x]: that of the innermost declaration in sight. *)
Fixpoint lookup {V} (rho : env V) : option V :=
  match rho with
  | [] => None
  | Some v :: _ => Some v
  | None :: outer => lookup outer
  end.

End Scope.

(** ** fmt.Sprintf("%06d", n) *)

Module Fmt.

Definition digit (d : Z) : ascii := ascii_of_nat (48 + Z.to_nat d).

(** Decimal digits of a non-negative number, most significant first.
    The fuel bounds the number of digits (an int32 has at most ten). *)
Fixpoint utoa (fuel : nat) (n : Z) (acc : string) : string :=
  match fuel with
  | O => acc
  | S fuel' =>
      let acc' := String (digit (n mod 10)) acc in
      if n / 10 =? 0 then acc' else utoa fuel' (n / 10) acc'
  end.

Fixpoint zeros (k : nat) : string :=
  match k with
  | O => EmptyString
  | S k' => String "0" (zeros k')
  end.

(** Left padding with zeros up to [width]; longer strings are kept. *)
Definition pad0 (width : nat) (s : string) : string :=
  zeros (width - String.length s) +:+ s.

(** The verb [%06d]: width 6, zero padding; the sign, when there is
    one, counts in the width and precedes the padding. *)
Definition Sprintf_06d (n : Z) : string :=
  if n <? 0 then String "-" (pad0 5 (utoa 10 (- n) EmptyString))
  else pad0 6 (utoa 10 n EmptyString).

(** Reading a decimal numeral back (used to state results only). *)
Definition digit_val (a : ascii) : Z := Z.of_nat (nat_of_ascii a) - 48.

Fixpoint atoi_from (acc : Z) (s : string) : Z :=
  match s with
  | EmptyString => acc
  | String a s' => atoi_from (acc * 10 + digit_val a) s'
  end.

Definition atoi (s : string) : Z := atoi_from 0 s.

Definition is_digit (a : ascii) : bool :=
  (48 <=? Z.of_nat (nat_of_ascii a)) && (Z.of_nat (nat_of_ascii a) <=? 57).

Fixpoint all_digits (s : string) : bool :=
  match s with
  | EmptyString => true
  | String a s' => is_digit a && all_digits s'
  end.

End Fmt.

(** ** The collaborators: message codec and length-header framing *)

(** [*iso8583.Message] with the methods the client calls, the message
    specification [brandSpec] (declared elsewhere in package main) and
    [network.VMLHeader].  A method that returns [(v, err)] returns a
    pair, [None] being the nil error; [Field] and [Unpack] mutate their
    receiver, so they return the receiver as it is left together with
    the error; [GetString] and [Pack] are taken to read only. *)
Class Iso8583 : Type := {
  Message : Type;
  (** [message.GetString(id)] *)
  GetString : Message -> Z -> string * option error;
  (** [message.Field(id, val)] *)
  Field : Message -> Z -> string -> Message * option error;
  (** [message.Pack()] *)
  Pack : Message -> list Byte.byte * option error;
  (** [m := iso8583.NewMessage(brandSpec); err = m.Unpack(raw)] *)
  Unpack : list Byte.byte -> Message * option error;
  (** [h := network.NewVMLHeader(); h.SetLength(n); h.WriteTo(&buf)]:
      the bytes appended to [buf], and the error *)
  HeaderWriteTo : nat -> list Byte.byte * option error;
}.

(** ** Channels and the client struct *)

(** A channel made by [make(chan A)]: unbuffered, identified by the
    allocation that made it. *)
Inductive chan (A : Type) : Type := Chan (id : nat).
Arguments Chan {A} id.

Definition chan_id {A} (ch : chan A) : nat := let 'Chan n := ch in n.

#[global] Instance chan_eq_dec A : EqDecision (chan A).
Proof. solve_decision. Defined.

(** [net.Conn], as returned by [net.Dial("tcp", addr)] *)
Inductive Conn : Type := TCPConn (addr : string).

Section ClientModel.

Context `{codec : Iso8583}.

(** [type Client struct].  [requestsCh] is an unbuffered channel made
    once by [NewClient]; it holds no data, its handoff is the
    rendezvous step of [sys_step] below.  [mutex] is implicit in the
    atomicity of the steps.  [conn] is [None] for the nil interface. *)
Record Client : Type := mkClient {
  conn : option Conn;
  respMap : gmap string (chan Message);
  closing : bool;
  stan : Z;  (* int32 *)
}.

Definition set_conn (v : option Conn) (c : Client) : Client :=
  mkClient v (respMap c) (closing c) (stan c).
Definition set_respMap (v : gmap string (chan Message)) (c : Client) : Client :=
  mkClient (conn c) v (closing c) (stan c).
Definition set_closing (v : bool) (c : Client) : Client :=
  mkClient (conn c) (respMap c) v (stan c).
Definition set_stan (v : Z) (c : Client) : Client :=
  mkClient (conn c) (respMap c) (closing c) v.

(** [func NewClient() *Client] *)
Definition NewClient : Client := mkClient None ∅ false 0.

(** [type request struct] *)
Record request : Type := mkRequest {
  rawMessage : list Byte.byte;  (* includes length header and message itself *)
  req_requestID : string;       (* the field [requestID] *)
  replyCh : chan Message;
  errCh : chan error;
}.

(** Two's complement wrap-around of int32 arithmetic. *)
Definition wrap32 (z : Z) : Z := (z + 2 ^ 31) mod 2 ^ 32 - 2 ^ 31.

(** [func (c *Client) getSTAN() string] *)
Definition getSTAN (c : Client) : Client * string :=
  let s := wrap32 (stan c + 1) in
  let s := if s >? 999999 then 0 else s in
  (set_stan s c, Fmt.Sprintf_06d s).

(** The STAN returned by the call number [k] (from 0) of [getSTAN],
    starting from client [c], with nothing else touching the counter. *)
Fixpoint nthSTAN (k : nat) (c : Client) : string :=
  match k with
  | O => snd (getSTAN c)
  | S k' => nthSTAN k' (fst (getSTAN c))
  end.

(** The result of [net.Dial("tcp", addr)]: a connection or an error,
    never both. *)
Definition DialResult : Type := error + Conn.

(** [func (c *Client) Connect(addr string) error], given what dialing
    does.  The third component tells whether the two loops were
    started. *)
Definition Connect (c : Client) (addr : string) (dial : string -> DialResult)
  : Client * option error * bool :=
  match dial addr with
  | inl err => (c, Some (Errorf "connecting to server: " err), false)
  | inr k => (set_conn (Some k) c, None, true)
  end.

(** How a call ends: it returns, or the goroutine panics. *)
Inductive CloseResult : Type :=
| CloseReturn (err : option error)
| ClosePanic.  (* invalid memory address or nil pointer dereference *)

(** [func (c *Client) Close() error]; [conn_close] is what
    [c.conn.Close()] returns when there is a connection to close. *)
Definition Close (c : Client) (conn_close : option error) : Client * CloseResult :=
  let c := set_closing true c in
  match conn c with
  | None => (c, ClosePanic)
  | Some _ => (c, CloseReturn conn_close)
  end.

(** [func requestID(message *iso8583.Message) (string, error)] *)
Definition requestID (message : Message) : string * option error :=
  let '(stan, err) := GetString message 11 in
  match err with
  | Some e => (EmptyString, Some (Errorf "getting STAN (field 11) of the message: " e))
  | None => (stan, None)
  end.

(** [func (c *Client) setMessageSTAN(message *iso8583.Message) error];
    the message is returned as the call leaves it. *)
Definition setMessageSTAN (c : Client) (message : Message)
  : Client * Message * option error :=
  let '(stan, err) := GetString message 11 in
  match err with
  | Some e =>
      (c, message, Some (Errorf "getting STAN (field 11) of the message: " e))
  | None =>
      let '(c, stan) := if String.eqb stan EmptyString then getSTAN c else (c, stan) in
      let '(message, err) := Field message 11 stan in
      match err with
      | Some e =>
          (c, message,
           Some (errorString ("setting STAN (field 11): " +:+ stan +:+
                              " of the message: " +:+ Error e)))
      | None => (c, message, None)
      end
  end.

(** The error [setMessageSTAN] returns for the error of
    [message.Field(11, used)] (a name for the last lines of the function
    above, to state its results). *)
Definition setting_error (used : string) (err : option error) : option error :=
  match err with
  | Some e =>
      Some (errorString ("setting STAN (field 11): " +:+ used +:+
                         " of the message: " +:+ Error e))
  | None => None
  end.

(** *** Send *)

(** [Send] up to its first blocking operation: either it has returned,
    or it stands at [c.requestsCh <- req]. *)
Inductive SendPrefix : Type :=
| SendReturn (resp : option Message) (err : option error)
| SendPublish (req : request).

(** The part of [Send] after the test of [c.closing]; [next] is the
    number of channels made so far. *)
Definition Send_prepare (c : Client) (next : nat) (message : Message)
  : Client * nat * Message * SendPrefix :=
  let '(c, message, err) := setMessageSTAN c message in
  match err with
  | Some e => (c, next, message, SendReturn None (Some (Errorf "setting message STAN: " e)))
  | None =>
  let '(packed, err) := Pack message in
  match err with
  | Some e => (c, next, message, SendReturn None (Some (Errorf "packing message: " e)))
  | None =>
  let '(header, err) := HeaderWriteTo (length packed) in
  match err with
  | Some e => (c, next, message, SendReturn None (Some (Errorf "writing message header: " e)))
  | None =>
  (* [buf.Write(packed)] on a [bytes.Buffer]: the error is always nil *)
  let buf := header ++ packed in
  let '(reqID, err) := requestID message in
  match err with
  | Some e => (c, next, message, SendReturn None (Some (Errorf "getting request ID: " e)))
  | None =>
      (c, (next + 2)%nat, message,
       SendPublish (mkRequest buf reqID (Chan next) (Chan (next + 1))))
  end end end end.

(** [func (c *Client) Send(message)], up to the first blocking
    operation. *)
Definition Send (c : Client) (next : nat) (message : Message)
  : Client * nat * Message * SendPrefix :=
  if closing c then (c, next, message, SendReturn None (Some ErrConnectionClosed))
  else Send_prepare c next message.

(** *** writeLoop *)

(** [c.respMap[req.requestID] = req.replyCh] *)
Definition writeLoop_register (c : Client) (req : request) : Client :=
  set_respMap (<[req_requestID req := replyCh req]> (respMap c)) c.

(** One iteration of [for req := range c.requestsCh], given what
    [c.conn.Write] returns: the client afterwards, and the handoff
    [req.errCh <- err] the iteration blocks on, if any.  The loop has
    no [break] and no [return]: the next iteration follows. *)
Definition writeLoop_body (c : Client) (req : request) (write_err : option error)
  : Client * option (chan error * error) :=
  let c := writeLoop_register c req in
  match write_err with
  | Some err => (c, Some (errCh req, err))
  | None => (c, None)
  end.

(** *** readLoop *)

(** What the two reads of one iteration return: [header.ReadFrom(r)],
    then [io.ReadFull(r, raw)] with the bytes left in [raw]. *)
Record Frame : Type := mkFrame {
  header_err : option error;
  raw : list Byte.byte;
  raw_err : option error;
}.

(** The variable [err] of [readLoop]; [None] is nil. *)
Definition ErrEnv : Type := Scope.env (option error).

(** [err != nil] *)
Definition err_not_nil (rho : ErrEnv) : bool :=
  match Scope.lookup rho with
  | Some (Some _) => true
  | _ => false
  end.

(** The body of [readLoop] starts with [var err error]. *)
Definition readLoop_entry : ErrEnv := Scope.declare None [None].

(** One iteration of the [for] loop, up to its blocking operation. *)
Inductive ReadStep : Type :=
| ReadBreak (rho : ErrEnv)
  (* found: blocked on [replyCh <- message], [delete] comes next *)
| ReadReply (rho : ErrEnv) (replyCh : chan Message) (message : Message) (reqID : string)
  (* not found: the else branch holds a comment only *)
| ReadNext (rho : ErrEnv).

Definition readLoop_body (c : Client) (rho : ErrEnv) (f : Frame) : ReadStep :=
  let rho := Scope.enter rho in
  (* _, err := header.ReadFrom(r) *)
  let rho := Scope.declare (header_err f) rho in
  if err_not_nil rho then ReadBreak (Scope.leave rho) else
  (* _, err = io.ReadFull(r, raw) *)
  let rho := Scope.assign (raw_err f) rho in
  if err_not_nil rho then ReadBreak (Scope.leave rho) else
  (* err = message.Unpack(raw) *)
  let '(message, err) := Unpack (raw f) in
  let rho := Scope.assign err rho in
  if err_not_nil rho then ReadBreak (Scope.leave rho) else
  (* reqID, err := requestID(message) *)
  let '(reqID, err) := requestID message in
  let rho := Scope.declare err rho in
  if err_not_nil rho then ReadBreak (Scope.leave rho) else
  match respMap c !! reqID with
  | Some replyCh => ReadReply (Scope.leave rho) replyCh message reqID
  | None => ReadNext (Scope.leave rho)
  end.

(** [delete(c.respMap, reqID)] *)
Definition readLoop_delete (c : Client) (reqID : string) : Client :=
  set_respMap (delete reqID (respMap c)) c.

(** The statements after the loop: what is printed on [os.Stderr].
    Nothing else follows; the function ends on a comment. *)
Definition readLoop_exit (c : Client) (rho : ErrEnv) : list string :=
  match Scope.lookup rho with
  | Some (Some err) =>
      if negb (closing c) then ["reading standard input: " +:+ Error err] else []
  | _ => []
  end.

(** ** The goroutines of a connected client *)

(** A goroutine that called [Send(message)]; [message] is the caller's
    message as the call has left it so far. *)
Inductive Caller : Type :=
  (* past the test of [c.closing], before [setMessageSTAN] *)
| CPreparing (message : Message)
  (* blocked on [c.requestsCh <- req] *)
| CPublishing (message : Message) (req : request)
  (* blocked in [select] on [req.replyCh] and [req.errCh] *)
| CSelecting (message : Message) (req : request)
  (* returned [(resp, err)]; [req] is the request it had built, if any *)
| CReturned (message : Message) (req : option request)
            (resp : option Message) (err : option error).

Definition caller_req (cl : Caller) : option request :=
  match cl with
  | CPreparing _ => None
  | CPublishing _ req | CSelecting _ req => Some req
  | CReturned _ req _ _ => req
  end.

Definition caller_message (cl : Caller) : Message :=
  match cl with
  | CPreparing m | CPublishing m _ | CSelecting m _ | CReturned m _ _ _ => m
  end.

(** The goroutine of [writeLoop]. *)
Inductive Writer : Type :=
| WReceiving                          (* at [range c.requestsCh] *)
| WRegistering (req : request)        (* before the map assignment *)
| WWriting (req : request)            (* before [c.conn.Write] *)
| WFailing (req : request) (err : error).  (* blocked on [req.errCh <- err] *)

Definition writer_req (w : Writer) : option request :=
  match w with
  | WReceiving => None
  | WRegistering req | WWriting req | WFailing req _ => Some req
  end.

(** The goroutine of [readLoop]. *)
Inductive Reader : Type :=
| RReading (rho : ErrEnv)             (* at the head of the loop *)
| RReplying (rho : ErrEnv) (ch : chan Message) (message : Message) (reqID : string)
                                      (* blocked on [replyCh <- message] *)
| RDeleting (rho : ErrEnv) (reqID : string)  (* before [delete] *)
| RLeaving (rho : ErrEnv)             (* out of the loop *)
| RReturned.

Record System : Type := mkSystem {
  client : Client;
  nextChan : nat;                     (* channels made so far *)
  callers : gmap nat Caller;          (* the goroutines in [Send] *)
  writer : Writer;
  reader : Reader;
  outbound : list (list Byte.byte);   (* the writes the connection accepted *)
  stderr : list string;               (* lines printed on [os.Stderr] *)
}.

Definition with_client (c : Client) (s : System) : System :=
  mkSystem c (nextChan s) (callers s) (writer s) (reader s) (outbound s) (stderr s).
Definition with_caller (i : nat) (cl : Caller) (s : System) : System :=
  mkSystem (client s) (nextChan s) (<[i := cl]> (callers s)) (writer s) (reader s)
           (outbound s) (stderr s).
Definition with_writer (w : Writer) (s : System) : System :=
  mkSystem (client s) (nextChan s) (callers s) w (reader s) (outbound s) (stderr s).
Definition with_reader (r : Reader) (s : System) : System :=
  mkSystem (client s) (nextChan s) (callers s) (writer s) r (outbound s) (stderr s).

(** The moves of the system.  What the connection does (the outcome of
    a write, of the reads of an iteration, of closing) comes with the
    move: the peer and the network are not constrained. *)
Inductive Action : Type :=
| ASend (i : nat) (message : Message)  (* goroutine [i] calls [Send]: lock, test of [closing] *)
| APrepare (i : nat)                   (* [Send] down to [c.requestsCh <- req] *)
| AHandoffRequest (i : nat)            (* [c.requestsCh <- req] meets [range] *)
| ARegister                            (* [c.respMap[req.requestID] = req.replyCh] *)
| AWrite (err : option error)          (* [c.conn.Write] *)
| AHandoffError (i : nat)              (* [req.errCh <- err] meets the [select] *)
| ARead (f : Frame)                    (* an iteration of [readLoop] down to the map lookup *)
| AHandoffReply (i : nat)              (* [replyCh <- message] meets the [select] *)
| ADelete                              (* [delete(c.respMap, reqID)] *)
| ALeave                               (* the statements after the loop *)
| AClose (err : option error).         (* a goroutine calls [Close] *)

Definition sys_step (a : Action) (s : System) : option System :=
  match a with
  | ASend i message =>
      match callers s !! i with
      | Some _ => None
      | None =>
          if closing (client s)
          then Some (with_caller i (CReturned message None None (Some ErrConnectionClosed)) s)
          else Some (with_caller i (CPreparing message) s)
      end
  | APrepare i =>
      match callers s !! i with
      | Some (CPreparing message) =>
          let '(c, next, message, pre) := Send_prepare (client s) (nextChan s) message in
          let cl := match pre with
                    | SendReturn resp err => CReturned message None resp err
                    | SendPublish req => CPublishing message req
                    end in
          Some (mkSystem c next (<[i := cl]> (callers s)) (writer s) (reader s)
                         (outbound s) (stderr s))
      | _ => None
      end
  | AHandoffRequest i =>
      match callers s !! i, writer s with
      | Some (CPublishing message req), WReceiving =>
          Some (with_writer (WRegistering req) (with_caller i (CSelecting message req) s))
      | _, _ => None
      end
  | ARegister =>
      match writer s with
      | WRegistering req =>
          Some (with_writer (WWriting req) (with_client (writeLoop_register (client s) req) s))
      | _ => None
      end
  | AWrite err =>
      match writer s with
      | WWriting req =>
          match err with
          | Some e => Some (with_writer (WFailing req e) s)
          | None =>
              Some (mkSystem (client s) (nextChan s) (callers s) WReceiving (reader s)
                             (outbound s ++ [rawMessage req]) (stderr s))
          end
      | _ => None
      end
  | AHandoffError i =>
      match callers s !! i, writer s with
      | Some (CSelecting message req), WFailing wreq e =>
          if decide (errCh req = errCh wreq)
          then Some (with_writer WReceiving
                       (with_caller i (CReturned message (Some req) None (Some e)) s))
          else None
      | _, _ => None
      end
  | ARead f =>
      match reader s with
      | RReading rho =>
          match readLoop_body (client s) rho f with
          | ReadBreak rho' => Some (with_reader (RLeaving rho') s)
          | ReadReply rho' ch message reqID =>
              Some (with_reader (RReplying rho' ch message reqID) s)
          | ReadNext rho' => Some (with_reader (RReading rho') s)
          end
      | _ => None
      end
  | AHandoffReply i =>
      match callers s !! i, reader s with
      | Some (CSelecting message req), RReplying rho ch reply reqID =>
          if decide (replyCh req = ch)
          then Some (with_reader (RDeleting rho reqID)
                       (with_caller i (CReturned message (Some req) (Some reply) None) s))
          else None
      | _, _ => None
      end
  | ADelete =>
      match reader s with
      | RDeleting rho reqID =>
          Some (with_reader (RReading rho) (with_client (readLoop_delete (client s) reqID) s))
      | _ => None
      end
  | ALeave =>
      match reader s with
      | RLeaving rho =>
          Some (mkSystem (client s) (nextChan s) (callers s) (writer s) RReturned
                         (outbound s) (stderr s ++ readLoop_exit (client s) rho))
      | _ => None
      end
  | AClose err =>
      match Close (client s) err with
      | (c, CloseReturn _) => Some (with_client c s)
      | (_, ClosePanic) => None
      end
  end.

(** A schedule, move after move; [None] when a move is not enabled. *)
Fixpoint run (acts : list Action) (s : System) : option System :=
  match acts with
  | [] => Some s
  | a :: acts' =>
      match sys_step a s with
      | Some s' => run acts' s'
      | None => None
      end
  end.

(** The system that [NewClient] followed by a successful [Connect]
    leaves: both loops started, nothing sent yet. *)
Definition sys_init (addr : string) : System :=
  mkSystem (fst (fst (Connect NewClient addr (fun a => inr (TCPConn a)))))
           0 ∅ WReceiving
           (RReading readLoop_entry) [] [].

(** ** What the proofs speak about *)

(** The environment a step of [readLoop] leaves. *)
Definition read_env (r : ReadStep) : ErrEnv :=
  match r with
  | ReadBreak rho | ReadReply rho _ _ _ | ReadNext rho => rho
  end.

(** The environment of the reader goroutine while it runs. *)
Definition reader_env (r : Reader) : option ErrEnv :=
  match r with
  | RReading rho | RReplying rho _ _ _ | RDeleting rho _ | RLeaving rho => Some rho
  | RReturned => None
  end.

(** Request [req] was built by one of the calls of [Send]. *)
Definition holds (cs : gmap nat Caller) (req : request) : Prop :=
  exists i cl, cs !! i = Some cl /\ caller_req cl = Some req.

(** Every reply channel in sight is tied to one correlation key. *)
Definition tied (cs : gmap nat Caller) (next : nat) (ch : chan Message) (k : string)
  : Prop :=
  (chan_id ch < next)%nat /\
  forall req, holds cs req -> replyCh req = ch -> req_requestID req = k.

(** The invariant of the system behind the matching of replies. *)
Record matching (s : System) : Prop := mkMatching {
  (* requests carry the channels made for them *)
  m_fresh : forall req, holds (callers s) req ->
      tied (callers s) (nextChan s) (replyCh req) (req_requestID req);
  (* the table maps a key to a channel of a request with that key *)
  m_table : forall k ch, respMap (client s) !! k = Some ch ->
      tied (callers s) (nextChan s) ch k;
  (* the request in the hands of [writeLoop] comes from a caller *)
  m_writer : forall req, writer_req (writer s) = Some req -> holds (callers s) req;
  (* the reply in the hands of [readLoop] goes to a channel of its key *)
  m_reader : forall rho ch reply reqID, reader s = RReplying rho ch reply reqID ->
      GetString reply 11 = (reqID, None) /\ tied (callers s) (nextChan s) ch reqID;
  (* the key of a request is the STAN of the message it was built from *)
  m_message : forall i cl req, callers s !! i = Some cl -> caller_req cl = Some req ->
      GetString (caller_message cl) 11 = (req_requestID req, None);
  (* a reply that was returned has the key of the request *)
  m_reply : forall i message req reply err,
      callers s !! i = Some (CReturned message (Some req) (Some reply) err) ->
      GetString reply 11 = (req_requestID req, None);
}.

(** The state in which a call is left waiting for good: the reader has
    returned, the writer is idle, the flag is up, and every call other
    than [i] has returned. *)
Definition abandoned (i : nat) (message : Message) (req : request) (s : System) : Prop :=
  closing (client s) = true /\
  conn (client s) <> None /\
  reader s = RReturned /\
  writer s = WReceiving /\
  callers s !! i = Some (CSelecting message req) /\
  forall j cl, callers s !! j = Some cl -> j <> i ->
    exists m r resp err, cl = CReturned m r resp err.

(** ** Further invariants of the system *)


(** The call has returned [(nil, ErrConnectionClosed)] without having
    built a request. *)
Definition refused (cl : Caller) : Prop :=
  exists message, cl = CReturned message None None (Some ErrConnectionClosed).

(** What every state of a connected client satisfies: the connection
    and the range of the counter, the make-up of the requests the calls
    have built, and where the bytes written come from. *)
Record wellformed (addr : string) (s : System) : Prop := mkWellformed {
  wf_conn : conn (client s) = Some (TCPConn addr);
  wf_stan : 0 <= stan (client s) <= 999999;
  wf_req : forall i cl req,
      callers s !! i = Some cl -> caller_req cl = Some req ->
      exists n packed header,
        replyCh req = Chan n /\ errCh req = Chan (n + 1) /\
        (n + 2 <= nextChan s)%nat /\
        requestID (caller_message cl) = (req_requestID req, None) /\
        Pack (caller_message cl) = (packed, None) /\
        HeaderWriteTo (length packed) = (header, None) /\
        rawMessage req = header ++ packed;
  wf_distinct : forall i j cli clj reqi reqj,
      callers s !! i = Some cli -> callers s !! j = Some clj ->
      caller_req cli = Some reqi -> caller_req clj = Some reqj ->
      replyCh reqi = replyCh reqj -> i = j;
  wf_writer : forall req, writer_req (writer s) = Some req -> holds (callers s) req;
  wf_outbound : forall frame, In frame (outbound s) ->
      exists i cl req, callers s !! i = Some cl /\ caller_req cl = Some req /\
                       frame = rawMessage req;
}.

End ClientModel.

(** ** A small codec to run the model on *)

(** Messages with a message type indicator and a STAN; the wire form is
    the four characters of the indicator followed by the STAN, behind a
    one-byte length. *)
Module Wire.

Record msg : Type := mkMsg { mti : string; f11 : string }.

Definition get_string (m : msg) (id : Z) : string * option error :=
  if id =? 0 then (mti m, None)
  else if id =? 11 then (f11 m, None)
  else (EmptyString, Some (errorString "field is not defined"))%string.

Definition set_field (m : msg) (id : Z) (v : string) : msg * option error :=
  if id =? 0 then (mkMsg v (f11 m), None)
  else if id =? 11 then (mkMsg (mti m) v, None)
  else (m, Some (errorString "field is not defined")).

Definition pack (m : msg) : list Byte.byte * option error :=
  if (String.length (mti m) =? 4)%nat
  then (list_byte_of_string (mti m +:+ f11 m), None)
  else ([], Some (errorString "bad message type indicator")).

Definition unpack (bs : list Byte.byte) : msg * option error :=
  let s := string_of_list_byte bs in
  if (String.length s <? 4)%nat
  then (mkMsg EmptyString EmptyString, Some (errorString "short message"))
  else (mkMsg (substring 0 4 s) (substring 4 (String.length s - 4) s), None).

Definition header (n : nat) : list Byte.byte * option error :=
  match Byte.of_nat n with
  | Some b => ([b], None)
  | None => ([], Some (errorString "message is too long"))
  end.

#[local] Instance codec : Iso8583 :=
  {| Message := msg; GetString := get_string; Field := set_field;
     Pack := pack; Unpack := unpack; HeaderWriteTo := header |}.

Definition eof : error := errorString "EOF".

(** The frame a peer sends for message [m], and a failed read. *)
Definition frame_of (m : msg) : Frame := mkFrame None (fst (pack m)) None.
Definition frame_eof : Frame := mkFrame (Some eof) [] None.

Definition addr0 : string := "127.0.0.1:8583".

(** Messages and schedules for the runs at the end of the file. *)
Definition purchase : msg := mkMsg "0200" EmptyString.
Definition purchase_123 : msg := mkMsg "0200" "000123".
Definition reply_to (stan : string) : msg := mkMsg "0210" stan.
Definition epipe : error := errorString "write: broken pipe".

(** Goroutine [i] sends [m] and the write succeeds. *)
Definition sent (i : nat) (m : msg) : list Action :=
  [ASend i m; APrepare i; AHandoffRequest i; ARegister; AWrite None].

(** The peer's message [m] is read and handed to goroutine [i]. *)
Definition replied (i : nat) (m : msg) : list Action :=
  [ARead (frame_of m); AHandoffReply i; ADelete].

(** A request is out, [Close] is called, the read fails, [readLoop] ends. *)
Definition close_while_pending : list Action :=
  sent 0 purchase ++ [AClose None; ARead frame_eof; ALeave].

(** The write of the only request fails. *)
Definition write_fails : list Action :=
  [ASend 0%nat purchase; APrepare 0%nat; AHandoffRequest 0%nat; ARegister;
   AWrite (Some epipe); AHandoffError 0%nat].

(** Two requests, answered in the opposite order. *)
Definition out_of_order : list Action :=
  sent 0 purchase ++ sent 1 purchase ++
  replied 1 (reply_to "000002") ++ replied 0 (reply_to "000001").

(** Two requests with the STAN 000123, up to the second registration. *)
Definition same_key : list Action :=
  sent 0 purchase_123 ++
  [ASend 1%nat purchase_123; APrepare 1%nat; AHandoffRequest 1%nat; ARegister].

(** The state a schedule leads to from a freshly connected client. *)
Definition after (acts : list Action) : System :=
  default (sys_init addr0) (run acts (sys_init addr0)).

(** A message whose indicator is too short to pack, and the schedule of
    a request whose write fails, up to the handoff of the error. *)
Definition malformed : msg := mkMsg "02" EmptyString.

End Wire.

(** * Proofs *)

(** ** Facts about [%06d] *)

Module FmtFacts.
Import Fmt.

Lemma append_nil (t : string) : EmptyString +:+ t = t.
Proof. reflexivity. Qed.

Lemma append_cons (a : ascii) (s t : string) : String a s +:+ t = String a (s +:+ t).
Proof. reflexivity. Qed.

Lemma length_append (s t : string) :
  String.length (s +:+ t) = (String.length s + String.length t)%nat.
Proof.
  induction s as [|a s IH]; [reflexivity |].
  rewrite append_cons. simpl. now rewrite IH.
Qed.

Lemma append_assoc (s t u : string) : (s +:+ t) +:+ u = s +:+ (t +:+ u).
Proof.
  induction s as [|a s IH]; [reflexivity |].
  rewrite !append_cons. now rewrite IH.
Qed.

Lemma all_digits_append (s t : string) :
  all_digits (s +:+ t) = all_digits s && all_digits t.
Proof.
  induction s as [|a s IH]; [reflexivity |].
  rewrite append_cons. simpl. rewrite IH. now rewrite andb_assoc.
Qed.

Lemma atoi_from_append (acc : Z) (s t : string) :
  atoi_from acc (s +:+ t) = atoi_from (atoi_from acc s) t.
Proof.
  revert acc. induction s as [|a s IH]; intros acc; [reflexivity |].
  rewrite append_cons. simpl. apply IH.
Qed.

Lemma digit_cases (d : Z) :
  0 <= d <= 9 -> digit_val (digit d) = d /\ is_digit (digit d) = true.
Proof.
  intros Hd.
  assert (Hc : d = 0 \/ d = 1 \/ d = 2 \/ d = 3 \/ d = 4 \/
               d = 5 \/ d = 6 \/ d = 7 \/ d = 8 \/ d = 9) by lia.
  repeat (destruct Hc as [-> | Hc]; [split; reflexivity |]).
  subst d. split; reflexivity.
Qed.

Lemma utoa_acc (fuel : nat) (n : Z) (acc : string) :
  utoa fuel n acc = utoa fuel n EmptyString +:+ acc.
Proof.
  revert n acc. induction fuel as [|fuel IH]; intros n acc; cbn [utoa]; [reflexivity |].
  destruct (n / 10 =? 0); [reflexivity |].
  rewrite (IH _ (String _ acc)), (IH _ (String _ EmptyString)).
  now rewrite append_assoc.
Qed.

Lemma zeros_length (k : nat) : String.length (zeros k) = k.
Proof. induction k; cbn [zeros String.length]; congruence. Qed.

Lemma zeros_digits (k : nat) : all_digits (zeros k) = true.
Proof. induction k; [reflexivity | exact IHk]. Qed.

Lemma zeros_atoi (k : nat) : atoi_from 0 (zeros k) = 0.
Proof. induction k; [reflexivity | exact IHk]. Qed.

(** The digits written for [n] read back as [n]. *)
Lemma utoa_atoi (fuel : nat) (n : Z) :
  0 <= n < 10 ^ Z.of_nat fuel -> atoi (utoa fuel n EmptyString) = n.
Proof.
  unfold atoi. revert n. induction fuel as [|fuel IH]; intros n Hn.
  - change (10 ^ Z.of_nat 0) with 1 in Hn. cbn [utoa atoi_from]. lia.
  - cbn [utoa].
    assert (Hd : 0 <= n mod 10 <= 9) by (pose proof (Z.mod_pos_bound n 10); lia).
    destruct (digit_cases _ Hd) as [Hv _].
    pose proof (Z.div_mod n 10) as Hdm.
    destruct (n / 10 =? 0) eqn:Hq.
    + apply Z.eqb_eq in Hq. cbn [atoi_from]. rewrite Hv. lia.
    + rewrite utoa_acc, atoi_from_append. rewrite IH.
      * cbn [atoi_from]. rewrite Hv. lia.
      * rewrite Nat2Z.inj_succ, Z.pow_succ_r in Hn by lia.
        split; [apply Z.div_pos; lia | apply Z.div_lt_upper_bound; lia].
Qed.

Lemma utoa_digits (fuel : nat) (n : Z) :
  0 <= n -> all_digits (utoa fuel n EmptyString) = true.
Proof.
  revert n. induction fuel as [|fuel IH]; intros n Hn; [reflexivity |].
  cbn [utoa].
  assert (Hd : 0 <= n mod 10 <= 9) by (pose proof (Z.mod_pos_bound n 10); lia).
  destruct (digit_cases _ Hd) as [_ Hi].
  destruct (n / 10 =? 0).
  - cbn [all_digits]. now rewrite Hi.
  - rewrite utoa_acc, all_digits_append, IH by (apply Z.div_pos; lia).
    cbn [all_digits]. now rewrite Hi.
Qed.

Lemma utoa_length (fuel k : nat) (n : Z) :
  (1 <= k)%nat -> 0 <= n < 10 ^ Z.of_nat k ->
  (String.length (utoa fuel n EmptyString) <= k)%nat.
Proof.
  revert k n. induction fuel as [|fuel IH]; intros k n Hk Hn;
    [cbn [utoa String.length]; lia |].
  cbn [utoa]. destruct (n / 10 =? 0) eqn:Hq; [cbn [String.length]; lia |].
  apply Z.eqb_neq in Hq.
  rewrite utoa_acc, length_append. cbn [String.length].
  destruct k as [|k]; [lia |].
  rewrite Nat2Z.inj_succ, Z.pow_succ_r in Hn by lia.
  assert (Hq' : 0 < n / 10).
  { assert (0 <= n / 10) by (apply Z.div_pos; lia). lia. }
  assert (Hlt : n / 10 < 10 ^ Z.of_nat k) by (apply Z.div_lt_upper_bound; lia).
  assert (Hk' : (1 <= k)%nat).
  { destruct k; [change (10 ^ Z.of_nat 0) with 1 in Hlt; lia | lia]. }
  specialize (IH k (n / 10) Hk' ltac:(lia)). lia.
Qed.

(** On the range of the STAN counter, [%06d] writes exactly six
    digits, which read back as the number. *)
Lemma Sprintf_06d_range (n : Z) :
  0 <= n <= 999999 ->
  String.length (Sprintf_06d n) = 6%nat /\
  all_digits (Sprintf_06d n) = true /\
  atoi (Sprintf_06d n) = n.
Proof.
  intros Hn. unfold Sprintf_06d.
  destruct (n <? 0) eqn:Hneg; [apply Z.ltb_lt in Hneg; lia |].
  unfold pad0.
  assert (Hlen : (String.length (utoa 10 n EmptyString) <= 6)%nat).
  { apply utoa_length; [lia |]. change (10 ^ Z.of_nat 6) with 1000000. lia. }
  repeat split.
  - rewrite length_append, zeros_length. lia.
  - rewrite all_digits_append, zeros_digits, utoa_digits by lia. reflexivity.
  - unfold atoi. rewrite atoi_from_append, zeros_atoi.
    apply (utoa_atoi 10). change (10 ^ Z.of_nat 10) with 10000000000. lia.
Qed.

Lemma Sprintf_06d_inj (n m : Z) :
  0 <= n <= 999999 -> 0 <= m <= 999999 ->
  Sprintf_06d n = Sprintf_06d m -> n = m.
Proof.
  intros Hn Hm Heq.
  destruct (Sprintf_06d_range n Hn) as (_ & _ & <-).
  destruct (Sprintf_06d_range m Hm) as (_ & _ & <-).
  now rewrite Heq.
Qed.

End FmtFacts.

Section ClientProofs.

Context `{codec : Iso8583}.

(** ** The STAN generator *)

Lemma wrap32_id (z : Z) : - 2 ^ 31 <= z < 2 ^ 31 -> wrap32 z = z.
Proof.
  intros Hz. unfold wrap32.
  rewrite Z.mod_small; lia.
Qed.

Lemma getSTAN_next (c : Client) :
  0 <= stan c <= 999999 ->
  getSTAN c = (set_stan ((stan c + 1) mod 1000000) c,
               Fmt.Sprintf_06d ((stan c + 1) mod 1000000)).
Proof.
  intros Hc. unfold getSTAN.
  rewrite wrap32_id by lia.
  destruct (stan c + 1 >? 999999) eqn:Hgt.
  - assert (stan c = 999999) as -> by lia. reflexivity.
  - rewrite Z.mod_small by lia. reflexivity.
Qed.

Lemma nthSTAN_eq (k : nat) (c : Client) :
  0 <= stan c <= 999999 ->
  nthSTAN k c = Fmt.Sprintf_06d ((stan c + 1 + Z.of_nat k) mod 1000000).
Proof.
  revert c. induction k as [|k IH]; intros c Hc; cbn [nthSTAN];
    rewrite getSTAN_next by exact Hc; cbn [fst snd].
  - now rewrite Z.add_0_r.
  - rewrite IH; cbn [stan set_stan].
    + f_equal. rewrite <- (Z.add_assoc (_ mod _)), Zplus_mod_idemp_l.
      f_equal. lia.
    + pose proof (Z.mod_pos_bound (stan c + 1) 1000000). lia.
Qed.

(** C6. Each call of [getSTAN] adds one to the counter, 999999 being
    followed by 0, touches nothing else in the client, and returns the
    new counter as six decimal digits.  With no other caller, the
    STANs of successive calls differ until 1000000 calls have been made,
    every six-digit value is returned within 1000000 calls, and the
    sequence then repeats. *)
Theorem getSTAN_cycle (c : Client) :
  0 <= stan c <= 999999 ->
  stan (fst (getSTAN c)) = (if stan c =? 999999 then 0 else stan c + 1) /\
  snd (getSTAN c) = Fmt.Sprintf_06d (stan (fst (getSTAN c))) /\
  (conn (fst (getSTAN c)), respMap (fst (getSTAN c)), closing (fst (getSTAN c)))
    = (conn c, respMap c, closing c) /\
  (forall k : nat,
     String.length (nthSTAN k c) = 6%nat /\
     Fmt.all_digits (nthSTAN k c) = true /\
     Fmt.atoi (nthSTAN k c) = (stan c + 1 + Z.of_nat k) mod 1000000) /\
  (forall i j : nat,
     (i < j)%nat -> Z.of_nat j < Z.of_nat i + 1000000 ->
     nthSTAN i c <> nthSTAN j c) /\
  (forall v : Z, 0 <= v <= 999999 ->
     exists k : nat, Z.of_nat k < 1000000 /\ nthSTAN k c = Fmt.Sprintf_06d v) /\
  (forall i : nat, nthSTAN (i + Z.to_nat 1000000) c = nthSTAN i c).
Proof.
  intros Hc.
  assert (Hmod : forall z, 0 <= z mod 1000000 <= 999999).
  { intros z. pose proof (Z.mod_pos_bound z 1000000). lia. }
  rewrite getSTAN_next by exact Hc. cbn [fst snd stan set_stan conn respMap closing].
  split; [| split; [reflexivity | split; [reflexivity |]]].
  { destruct (stan c =? 999999) eqn:He.
    - apply Z.eqb_eq in He. now rewrite He.
    - apply Z.eqb_neq in He. rewrite Z.mod_small; lia. }
  split; [| split; [| split]].
  - intros k. rewrite nthSTAN_eq by exact Hc.
    apply FmtFacts.Sprintf_06d_range, Hmod.
  - intros i j Hij Hji Heq.
    rewrite !nthSTAN_eq in Heq by exact Hc.
    apply FmtFacts.Sprintf_06d_inj in Heq; try apply Hmod.
    pose proof (Z.div_mod (stan c + 1 + Z.of_nat i) 1000000).
    pose proof (Z.div_mod (stan c + 1 + Z.of_nat j) 1000000).
    lia.
  - intros v Hv.
    exists (Z.to_nat ((v - stan c - 1) mod 1000000)).
    specialize (Hmod (v - stan c - 1)).
    split; [lia |].
    rewrite nthSTAN_eq by exact Hc. f_equal.
    rewrite Z2Nat.id by lia.
    rewrite Zplus_mod_idemp_r.
    replace (stan c + 1 + (v - stan c - 1)) with v by lia.
    apply Z.mod_small. lia.
  - intros i. rewrite !nthSTAN_eq by exact Hc. f_equal.
    rewrite Nat2Z.inj_add, Z2Nat.id by lia.
    rewrite Z.add_assoc.
    rewrite <- (Z.mul_1_l 1000000) at 1.
    now rewrite Z.mod_add by lia.
Qed.

(** ** setMessageSTAN *)

Lemma getSTAN_moves (c : Client) : stan (fst (getSTAN c)) <> stan c.
Proof.
  unfold getSTAN, wrap32. cbn [fst stan set_stan].
  pose proof (Z.div_mod (stan c + 1 + 2 ^ 31) (2 ^ 32) ltac:(lia)) as Hdm.
  pose proof (Z.mod_pos_bound (stan c + 1 + 2 ^ 31) (2 ^ 32) ltac:(lia)) as Hb.
  destruct (_ >? 999999) eqn:Hgt; lia.
Qed.

Lemma setMessageSTAN_eq (c : Client) (message : Message) (stan0 : string) :
  GetString message 11 = (stan0, None) ->
  setMessageSTAN c message =
    if decide (stan0 = EmptyString)
    then (fst (getSTAN c), fst (Field message 11 (snd (getSTAN c))),
          setting_error (snd (getSTAN c)) (snd (Field message 11 (snd (getSTAN c)))))
    else (c, fst (Field message 11 stan0),
          setting_error stan0 (snd (Field message 11 stan0))).
Proof.
  intros Hget. unfold setMessageSTAN. rewrite Hget.
  destruct (decide (stan0 = EmptyString)) as [-> | Hne].
  - rewrite String.eqb_refl.
    destruct (getSTAN c) as [c1 g]. cbn [fst snd].
    destruct (Field message 11 g) as [m1 [e|]]; reflexivity.
  - apply String.eqb_neq in Hne. rewrite Hne.
    destruct (Field message 11 stan0) as [m1 [e|]]; reflexivity.
Qed.

Lemma Send_prepare_setMessageSTAN (c : Client) (next : nat) (message : Message) :
  let r := Send_prepare c next message in
  (fst (fst (fst r)), snd (fst r)) = fst (setMessageSTAN c message).
Proof.
  unfold Send_prepare.
  destruct (setMessageSTAN c message) as [[c1 m1] [e|]]; [reflexivity |].
  destruct (Pack m1) as [packed [e|]]; [reflexivity |].
  destruct (HeaderWriteTo (length packed)) as [header [e|]]; [reflexivity |].
  destruct (requestID m1) as [reqID [e|]]; reflexivity.
Qed.

(** C7. [setMessageSTAN] reads field 11; it calls [getSTAN] (and so
    moves the counter) exactly when the field is empty, and writes
    the generated STAN into the field; a STAN supplied by the caller
    is written back as it was read, the counter untouched, so that
    with a codec whose field 11 reads back what was written the field
    keeps its value.  [Send] leaves the client and the message as
    [setMessageSTAN] leaves them. *)
Theorem setMessageSTAN_generates_iff_empty
    (c : Client) (message : Message) (stan0 : string) :
  GetString message 11 = (stan0, None) ->
  (forall m v m', Field m 11 v = (m', None) -> GetString m' 11 = (v, None)) ->
  (stan (fst (fst (setMessageSTAN c message))) <> stan c <-> stan0 = EmptyString) /\
  (stan0 = EmptyString ->
     fst (setMessageSTAN c message) =
       (fst (getSTAN c), fst (Field message 11 (snd (getSTAN c)))) /\
     forall c1 m1, setMessageSTAN c message = (c1, m1, None) ->
       GetString m1 11 = (snd (getSTAN c), None)) /\
  (stan0 <> EmptyString ->
     fst (setMessageSTAN c message) = (c, fst (Field message 11 stan0)) /\
     forall c1 m1, setMessageSTAN c message = (c1, m1, None) ->
       c1 = c /\ GetString m1 11 = (stan0, None)) /\
  (forall next, closing c = false ->
     let r := Send c next message in
     (fst (fst (fst r)), snd (fst r)) = fst (setMessageSTAN c message)).
Proof.
  intros Hget Hlaw.
  pose proof (setMessageSTAN_eq c message stan0 Hget) as Heq.
  split; [| split; [| split]].
  - rewrite Heq. destruct (decide (stan0 = EmptyString)) as [He | Hne]; cbn [fst].
    + split; [intros _; exact He | intros _; apply getSTAN_moves].
    + split; [intros H; now contradict H | intros He; now contradict Hne].
  - intros He. rewrite Heq, decide_True by exact He. cbn [fst].
    split; [reflexivity |]. intros c1 m1 H.
    destruct (Field message 11 (snd (getSTAN c))) as [m2 [e|]] eqn:Hf;
      cbn in H; [discriminate |].
    injection H as _ <-. now apply Hlaw with (m := message).
  - intros Hne. rewrite Heq, decide_False by exact Hne. cbn [fst].
    split; [reflexivity |]. intros c1 m1 H.
    destruct (Field message 11 stan0) as [m2 [e|]] eqn:Hf;
      cbn in H; [discriminate |].
    injection H as <- <-. split; [reflexivity |]. now apply Hlaw with (m := message).
  - intros next Hopen. unfold Send. rewrite Hopen.
    apply Send_prepare_setMessageSTAN.
Qed.

(** ** Connect and Close *)

Lemma Send_prepare_conn (c : Client) (next : nat) (message : Message) :
  conn (fst (fst (fst (Send_prepare c next message)))) = conn c.
Proof.
  pose proof (Send_prepare_setMessageSTAN c next message) as H. cbn zeta in H.
  apply (f_equal fst) in H. cbn [fst] in H. rewrite H.
  unfold setMessageSTAN.
  destruct (GetString message 11) as [s [e|]]; [reflexivity |].
  destruct (String.eqb s EmptyString);
    [unfold getSTAN |]; destruct (Field message 11 _) as [m1 [e|]]; reflexivity.
Qed.

(** C10. [Close] raises the closing flag and then calls
    [c.conn.Close()] whatever [c.conn] is: it panics exactly when the
    field is nil.  The field is nil in a new client and after a
    [Connect] that failed, it is set by a [Connect] that succeeded, and
    no other function of the client assigns it. *)
Theorem Close_panics_iff_not_connected (c : Client) (conn_close : option error) :
  (snd (Close c conn_close) = ClosePanic <-> conn c = None) /\
  closing (fst (Close c conn_close)) = true /\
  snd (Close NewClient conn_close) = ClosePanic /\
  (forall addr err,
     snd (Close (fst (fst (Connect NewClient addr (fun _ => inl err)))) conn_close)
     = ClosePanic) /\
  (forall addr k,
     snd (fst (Connect c addr (fun _ => inr k))) = None /\
     snd (Close (fst (fst (Connect c addr (fun _ => inr k)))) conn_close)
     = CloseReturn conn_close) /\
  (forall next message,
     conn (fst (fst (fst (Send c next message)))) = conn c) /\
  (forall req, conn (writeLoop_register c req) = conn c) /\
  (forall reqID, conn (readLoop_delete c reqID) = conn c) /\
  conn (fst (Close c conn_close)) = conn c.
Proof.
  unfold Close. cbn [conn set_closing].
  split; [| split; [| split; [| split; [| split; [| split; [| split; [| split]]]]]]].
  - destruct (conn c); cbn [snd]; split; congruence.
  - destruct (conn c); reflexivity.
  - reflexivity.
  - reflexivity.
  - intros addr k. split; reflexivity.
  - intros next message. unfold Send.
    destruct (closing c); [reflexivity | apply Send_prepare_conn].
  - reflexivity.
  - reflexivity.
  - destruct (conn c) eqn:E; cbn [fst conn set_closing]; congruence.
Qed.

(** ** Send on a closing client *)

(** A call that has returned takes no further part in the system. *)
Lemma returned_stays (a : Action) (s s' : System) (i : nat)
    (message : Message) (req : option request)
    (resp : option Message) (err : option error) :
  callers s !! i = Some (CReturned message req resp err) ->
  sys_step a s = Some s' ->
  callers s' !! i = Some (CReturned message req resp err).
Proof.
  intros Hi Hstep.
  destruct a as [j m | j | j | | e | j | f | j | | | e]; cbn in Hstep.
  - destruct (callers s !! j) eqn:Hj; [discriminate |].
    assert (j <> i) by congruence.
    destruct (closing (client s)); injection Hstep as <-; cbn;
      now rewrite lookup_insert_ne.
  - destruct (callers s !! j) as [[m | | |]|] eqn:Hj; try discriminate.
    assert (j <> i) by congruence.
    destruct (Send_prepare _ _ m) as [[[c1 n1] m1] pre].
    injection Hstep as <-; cbn. now rewrite lookup_insert_ne.
  - destruct (callers s !! j) as [[| m r | |]|] eqn:Hj; try discriminate.
    assert (j <> i) by congruence.
    destruct (writer s); try discriminate.
    injection Hstep as <-; cbn. now rewrite lookup_insert_ne.
  - destruct (writer s); try discriminate. now injection Hstep as <-.
  - destruct (writer s); try discriminate.
    destruct e; now injection Hstep as <-.
  - destruct (callers s !! j) as [[| | m r |]|] eqn:Hj; try discriminate.
    assert (j <> i) by congruence.
    destruct (writer s); try discriminate.
    destruct (decide _); [| discriminate].
    injection Hstep as <-; cbn. now rewrite lookup_insert_ne.
  - destruct (reader s); try discriminate.
    destruct (readLoop_body _ _ _); now injection Hstep as <-.
  - destruct (callers s !! j) as [[| | m r |]|] eqn:Hj; try discriminate.
    assert (j <> i) by congruence.
    destruct (reader s); try discriminate.
    destruct (decide _); [| discriminate].
    injection Hstep as <-; cbn. now rewrite lookup_insert_ne.
  - destruct (reader s); try discriminate. now injection Hstep as <-.
  - destruct (reader s); try discriminate. now injection Hstep as <-.
  - destruct (Close _ _) as [c1 [r|]]; [| discriminate]. now injection Hstep as <-.
Qed.

(** C5. When the closing flag is set, [Send] returns
    [(nil, ErrConnectionClosed)] at once: the client (table and counter
    included) and the message are as they were, no channel is made, no
    request is built or published; in the system only the caller's own
    entry changes, nothing is written, both loops stand where they
    stood, and no later move involves the call. *)
Theorem Send_closing_fails_fast (s : System) (i : nat) (message : Message) :
  closing (client s) = true ->
  callers s !! i = None ->
  Send (client s) (nextChan s) message =
    (client s, nextChan s, message, SendReturn None (Some ErrConnectionClosed)) /\
  exists s',
    sys_step (ASend i message) s = Some s' /\
    callers s' = <[i := CReturned message None None (Some ErrConnectionClosed)]> (callers s) /\
    client s' = client s /\ nextChan s' = nextChan s /\
    outbound s' = outbound s /\ stderr s' = stderr s /\
    writer s' = writer s /\ reader s' = reader s /\
    forall acts s'', run acts s' = Some s'' ->
      callers s'' !! i = Some (CReturned message None None (Some ErrConnectionClosed)).
Proof.
  intros Hclosing Hfresh. split.
  - unfold Send. now rewrite Hclosing.
  - eexists. split.
    + cbn. rewrite Hfresh, Hclosing. reflexivity.
    + cbn. repeat split.
      intros acts.
      assert (Hi : callers (with_caller i
                     (CReturned message None None (Some ErrConnectionClosed)) s) !! i
                   = Some (CReturned message None None (Some ErrConnectionClosed)))
        by (cbn; apply lookup_insert_eq).
      revert Hi. generalize (with_caller i
                     (CReturned message None None (Some ErrConnectionClosed)) s).
      induction acts as [|a acts IH]; intros s1 Hi s2 Hrun; cbn in Hrun.
      * now injection Hrun as <-.
      * destruct (sys_step a s1) as [s1'|] eqn:Hstep; [| discriminate].
        eapply IH; [| exact Hrun]. eapply returned_stays; eassumption.
Qed.

(** ** Registration in the table *)

(** C4, as the code has it.  [writeLoop] assigns the map entry without
    looking at it: afterwards the key of the request maps to the reply
    channel of that request, whatever it mapped to before, and every
    other key is as it was.  The table keeps one entry per key, that of
    the latest registration. *)
Theorem writeLoop_register_overwrites (c : Client) (req : request) (k : string) :
  respMap (writeLoop_register c req) !! k =
    (if decide (k = req_requestID req) then Some (replyCh req) else respMap c !! k) /\
  (conn (writeLoop_register c req), closing (writeLoop_register c req),
   stan (writeLoop_register c req)) = (conn c, closing c, stan c).
Proof.
  split; [| reflexivity].
  unfold writeLoop_register. cbn [respMap set_respMap].
  destruct (decide (k = req_requestID req)) as [-> | Hne].
  - apply lookup_insert_eq.
  - now apply lookup_insert_ne.
Qed.

(** ** Replies reach the request of their own key *)

Lemma holds_insert_same (cs : gmap nat Caller) (j : nat) (cl' : Caller) (r : request) :
  cs !! j ≫= caller_req = caller_req cl' ->
  holds (<[j := cl']> cs) r <-> holds cs r.
Proof.
  intros Hsame. unfold holds. split.
  - intros (i & cl & Hi & Hr).
    destruct (decide (j = i)) as [<- | Hne].
    + rewrite lookup_insert_eq in Hi. injection Hi as <-.
      rewrite Hr in Hsame.
      destruct (cs !! j) as [cl0|] eqn:Hj; [| discriminate].
      exists j, cl0. auto.
    + rewrite lookup_insert_ne in Hi by exact Hne. eauto.
  - intros (i & cl & Hi & Hr).
    destruct (decide (j = i)) as [<- | Hne].
    + exists j, cl'. rewrite lookup_insert_eq. split; [reflexivity |].
      rewrite Hi in Hsame. cbn in Hsame. congruence.
    + exists i, cl. rewrite lookup_insert_ne by exact Hne. auto.
Qed.

Lemma holds_insert_new (cs : gmap nat Caller) (j : nat) (cl' : Caller)
    (req r : request) :
  cs !! j ≫= caller_req = None ->
  caller_req cl' = Some req ->
  holds (<[j := cl']> cs) r <-> holds cs r \/ r = req.
Proof.
  intros Hnone Hnew. unfold holds. split.
  - intros (i & cl & Hi & Hr).
    destruct (decide (j = i)) as [<- | Hne].
    + rewrite lookup_insert_eq in Hi. injection Hi as <-. right. congruence.
    + rewrite lookup_insert_ne in Hi by exact Hne. left. eauto.
  - intros [(i & cl & Hi & Hr) | ->].
    + destruct (decide (j = i)) as [<- | Hne].
      * rewrite Hi in Hnone. cbn in Hnone. congruence.
      * exists i, cl. rewrite lookup_insert_ne by exact Hne. auto.
    + exists j, cl'. rewrite lookup_insert_eq. auto.
Qed.

Lemma tied_same (cs cs' : gmap nat Caller) (next : nat) (ch : chan Message) (k : string) :
  (forall r, holds cs' r <-> holds cs r) ->
  tied cs next ch k -> tied cs' next ch k.
Proof.
  intros Hh [Hlt Hk]. split; [exact Hlt |].
  intros req Hreq. apply Hk. now apply Hh.
Qed.

Lemma tied_new (cs cs' : gmap nat Caller) (next : nat) (req : request)
    (ch : chan Message) (k : string) :
  (forall r, holds cs' r <-> holds cs r \/ r = req) ->
  replyCh req = Chan next ->
  tied cs next ch k -> tied cs' (next + 2) ch k.
Proof.
  intros Hh Hch [Hlt Hk]. split; [lia |].
  intros r Hr Heq. apply Hh in Hr. destruct Hr as [Hr | ->].
  - now apply Hk.
  - rewrite Hch in Heq. subst ch. cbn in Hlt. lia.
Qed.

Lemma requestID_ok (message : Message) (reqID : string) :
  requestID message = (reqID, None) -> GetString message 11 = (reqID, None).
Proof.
  unfold requestID. destruct (GetString message 11) as [s [e|]]; congruence.
Qed.

(** What [Send] has done when it reaches the handoff, or returned. *)
Lemma Send_prepare_cases (c c' : Client) (next next' : nat)
    (message message' : Message) (pre : SendPrefix) :
  Send_prepare c next message = (c', next', message', pre) ->
  respMap c' = respMap c /\ closing c' = closing c /\ conn c' = conn c /\
  match pre with
  | SendReturn resp err => next' = next /\ resp = None /\ err <> None
  | SendPublish req =>
      next' = (next + 2)%nat /\ replyCh req = Chan next /\
      errCh req = Chan (next + 1) /\
      GetString message' 11 = (req_requestID req, None)
  end.
Proof.
  unfold Send_prepare.
  assert (Hc : forall r, r = setMessageSTAN c message ->
            respMap (fst (fst r)) = respMap c /\ closing (fst (fst r)) = closing c /\
            conn (fst (fst r)) = conn c).
  { intros r ->. unfold setMessageSTAN.
    destruct (GetString message 11) as [s [e|]]; [auto |].
    destruct (String.eqb s EmptyString);
      [unfold getSTAN |]; destruct (Field message 11 _) as [m1 [e|]]; auto. }
  specialize (Hc _ eq_refl).
  destruct (setMessageSTAN c message) as [[c1 m1] [e|]]; cbn [fst] in Hc.
  { intros [= <- <- <- <-]. repeat split; tauto || discriminate. }
  destruct (Pack m1) as [packed [e|]].
  { intros [= <- <- <- <-]. repeat split; tauto || discriminate. }
  destruct (HeaderWriteTo (length packed)) as [header [e|]].
  { intros [= <- <- <- <-]. repeat split; tauto || discriminate. }
  destruct (requestID m1) as [reqID [e|]] eqn:Hid.
  { intros [= <- <- <- <-]. repeat split; tauto || discriminate. }
  intros [= <- <- <- <-]. cbn. repeat split; try tauto.
  now apply requestID_ok.
Qed.

(** What [readLoop] has found when it stands at the handoff. *)
Lemma readLoop_body_reply (c : Client) (rho rho' : ErrEnv) (f : Frame)
    (ch : chan Message) (reply : Message) (reqID : string) :
  readLoop_body c rho f = ReadReply rho' ch reply reqID ->
  respMap c !! reqID = Some ch /\ GetString reply 11 = (reqID, None) /\
  Unpack (raw f) = (reply, None) /\ header_err f = None /\ raw_err f = None.
Proof.
  unfold readLoop_body, err_not_nil, Scope.enter, Scope.declare.
  cbn [Scope.lookup Scope.assign].
  destruct (header_err f) as [e|]; [discriminate |].
  destruct (raw_err f) as [e|]; [discriminate |].
  destruct (Unpack (raw f)) as [m [e|]]; cbn [Scope.lookup Scope.assign];
    [discriminate |].
  destruct (requestID m) as [k [e|]] eqn:Hid; [discriminate |].
  destruct (respMap c !! k) as [ch0|] eqn:Hk; [| discriminate].
  intros [= <- <- <- <-]. repeat split; try assumption.
  now apply requestID_ok.
Qed.

(** A move that leaves the requests, the channel counter and the table
    alone keeps the invariant, given the four clauses about the
    goroutines it touched. *)
Lemma matching_transfer (s s' : System) :
  matching s ->
  (forall r, holds (callers s') r <-> holds (callers s) r) ->
  nextChan s' = nextChan s ->
  (forall k ch, respMap (client s') !! k = Some ch -> respMap (client s) !! k = Some ch) ->
  (forall req, writer_req (writer s') = Some req -> holds (callers s) req) ->
  (forall rho ch reply reqID, reader s' = RReplying rho ch reply reqID ->
     GetString reply 11 = (reqID, None) /\ tied (callers s) (nextChan s) ch reqID) ->
  (forall i cl req, callers s' !! i = Some cl -> caller_req cl = Some req ->
     GetString (caller_message cl) 11 = (req_requestID req, None)) ->
  (forall i message req reply err,
     callers s' !! i = Some (CReturned message (Some req) (Some reply) err) ->
     GetString reply 11 = (req_requestID req, None)) ->
  matching s'.
Proof.
  intros [Hf Ht Hw Hr Hm Hp] Hh Hn Hmap Hw' Hr' Hm' Hp'.
  constructor; rewrite ?Hn.
  - intros req Hreq. eapply tied_same; [exact Hh |]. apply Hf. now apply Hh.
  - intros k ch Hk. eapply tied_same; [exact Hh |]. now apply Ht, Hmap.
  - intros req Hreq. apply Hh. now apply Hw'.
  - intros rho ch reply reqID Hrd. destruct (Hr' _ _ _ _ Hrd) as [Hg Hti].
    split; [exact Hg |]. eapply tied_same; [exact Hh | exact Hti].
  - exact Hm'.
  - exact Hp'.
Qed.

Lemma matching_step (a : Action) (s s' : System) :
  matching s -> sys_step a s = Some s' -> matching s'.
Proof.
  intros Hinv Hstep.
  pose proof Hinv as [Hf Ht Hw Hr Hm Hp].
  destruct a as [j m | j | j | | e | j | f | j | | | e]; cbn in Hstep.
  - (* ASend *)
    destruct (callers s !! j) eqn:Hj; [discriminate |].
    assert (Hh : forall cl, caller_req cl = None ->
              forall r, holds (<[j := cl]> (callers s)) r <-> holds (callers s) r).
    { intros cl Hcl r. apply holds_insert_same. rewrite Hj, Hcl. reflexivity. }
    destruct (closing (client s)); injection Hstep as <-;
      (apply (matching_transfer s); cbn;
       [exact Hinv | now apply Hh | reflexivity | auto | exact Hw | exact Hr | | ]).
    + intros i cl req Hi. destruct (decide (j = i)) as [<- | Hne].
      * rewrite lookup_insert_eq in Hi. injection Hi as <-. discriminate.
      * rewrite lookup_insert_ne in Hi by exact Hne. now apply (Hm i).
    + intros i message req reply err Hi. destruct (decide (j = i)) as [<- | Hne].
      * rewrite lookup_insert_eq in Hi. discriminate.
      * rewrite lookup_insert_ne in Hi by exact Hne. eapply Hp, Hi.
    + intros i cl req Hi. destruct (decide (j = i)) as [<- | Hne].
      * rewrite lookup_insert_eq in Hi. injection Hi as <-. discriminate.
      * rewrite lookup_insert_ne in Hi by exact Hne. now apply (Hm i).
    + intros i message req reply err Hi. destruct (decide (j = i)) as [<- | Hne].
      * rewrite lookup_insert_eq in Hi. discriminate.
      * rewrite lookup_insert_ne in Hi by exact Hne. eapply Hp, Hi.
  - (* APrepare *)
    destruct (callers s !! j) as [[m | | |]|] eqn:Hj; try discriminate.
    destruct (Send_prepare _ _ m) as [[[c1 n1] m1] pre] eqn:Hprep.
    apply Send_prepare_cases in Hprep as (Hmap & _ & _ & Hpre).
    injection Hstep as <-.
    destruct pre as [resp err | req].
    + destruct Hpre as (-> & -> & _).
      apply (matching_transfer s); cbn; rewrite ?Hmap;
        [exact Hinv | | reflexivity | auto | exact Hw | exact Hr | | ].
      * intros r. apply holds_insert_same. now rewrite Hj.
      * intros i cl req Hi. destruct (decide (j = i)) as [<- | Hne].
        -- rewrite lookup_insert_eq in Hi. injection Hi as <-. discriminate.
        -- rewrite lookup_insert_ne in Hi by exact Hne. now apply (Hm i).
      * intros i message req reply err' Hi. destruct (decide (j = i)) as [<- | Hne].
        -- rewrite lookup_insert_eq in Hi. discriminate.
        -- rewrite lookup_insert_ne in Hi by exact Hne. eapply Hp, Hi.
    + destruct Hpre as (-> & Hch & _ & Hget).
      assert (Hh : forall r, holds (<[j := CPublishing m1 req]> (callers s)) r
                             <-> holds (callers s) r \/ r = req).
      { intros r. apply holds_insert_new; [now rewrite Hj | reflexivity]. }
      constructor; cbn; rewrite ?Hmap.
      * intros r Hr'. apply Hh in Hr'. destruct Hr' as [Hr' | ->].
        -- eapply tied_new; [exact Hh | exact Hch |]. now apply Hf.
        -- split; [rewrite Hch; cbn; lia |].
           intros r Hr' Heq. apply Hh in Hr'. destruct Hr' as [Hr' | ->]; [| reflexivity].
           destruct (Hf r Hr') as [Hlt _]. rewrite Heq, Hch in Hlt. cbn in Hlt. lia.
      * intros k ch Hk. eapply tied_new; [exact Hh | exact Hch |]. now apply Ht.
      * intros r Hr'. apply Hh. left. now apply Hw.
      * intros rho ch reply reqID Hrd. destruct (Hr _ _ _ _ Hrd) as [Hg Hti].
        split; [exact Hg |]. eapply tied_new; [exact Hh | exact Hch | exact Hti].
      * intros i cl r Hi. destruct (decide (j = i)) as [<- | Hne].
        -- rewrite lookup_insert_eq in Hi. injection Hi as <-. cbn.
           intros [= <-]. exact Hget.
        -- rewrite lookup_insert_ne in Hi by exact Hne. now apply (Hm i).
      * intros i message r reply err' Hi. destruct (decide (j = i)) as [<- | Hne].
        -- rewrite lookup_insert_eq in Hi. discriminate.
        -- rewrite lookup_insert_ne in Hi by exact Hne. eapply Hp, Hi.
  - (* AHandoffRequest *)
    destruct (callers s !! j) as [[| m req | |]|] eqn:Hj; try discriminate.
    destruct (writer s) eqn:Hwr; try discriminate.
    injection Hstep as <-.
    apply (matching_transfer s); cbn;
      [exact Hinv | | reflexivity | auto | | exact Hr | | ].
    + intros r. apply holds_insert_same. now rewrite Hj.
    + intros r [= <-]. exists j, (CPublishing m req). auto.
    + intros i cl r Hi. destruct (decide (j = i)) as [<- | Hne].
      * rewrite lookup_insert_eq in Hi. injection Hi as <-. cbn.
        intros [= <-]. now apply (Hm j (CPublishing m req)).
      * rewrite lookup_insert_ne in Hi by exact Hne. now apply (Hm i).
    + intros i message r reply err' Hi. destruct (decide (j = i)) as [<- | Hne].
      * rewrite lookup_insert_eq in Hi. discriminate.
      * rewrite lookup_insert_ne in Hi by exact Hne. eapply Hp, Hi.
  - (* ARegister *)
    destruct (writer s) as [| req | |] eqn:Hwr; try discriminate.
    injection Hstep as <-.
    assert (Hreq : holds (callers s) req) by (apply Hw; reflexivity).
    constructor; cbn.
    + exact Hf.
    + intros k ch Hk. destruct (decide (req_requestID req = k)) as [<- | Hne].
      * rewrite lookup_insert_eq in Hk. injection Hk as <-. now apply Hf.
      * rewrite lookup_insert_ne in Hk by exact Hne. now apply Ht.
    + intros r [= <-]. exact Hreq.
    + exact Hr.
    + exact Hm.
    + exact Hp.
  - (* AWrite *)
    destruct (writer s) as [| | req |] eqn:Hwr; try discriminate.
    assert (Hreq : holds (callers s) req) by (apply Hw; reflexivity).
    destruct e as [e|]; injection Hstep as <-;
      (apply (matching_transfer s); cbn;
       [exact Hinv | tauto | reflexivity | auto | | exact Hr | exact Hm | exact Hp]).
    + intros r [= <-]. exact Hreq.
    + discriminate.
  - (* AHandoffError *)
    destruct (callers s !! j) as [[| | m req |]|] eqn:Hj; try discriminate.
    destruct (writer s) eqn:Hwr; try discriminate.
    destruct (decide _); [| discriminate].
    injection Hstep as <-.
    apply (matching_transfer s); cbn;
      [exact Hinv | | reflexivity | auto | discriminate | exact Hr | | ].
    + intros r. apply holds_insert_same. now rewrite Hj.
    + intros i cl r Hi. destruct (decide (j = i)) as [<- | Hne].
      * rewrite lookup_insert_eq in Hi. injection Hi as <-. cbn.
        intros [= <-]. now apply (Hm j (CSelecting m req)).
      * rewrite lookup_insert_ne in Hi by exact Hne. now apply (Hm i).
    + intros i message r reply err' Hi. destruct (decide (j = i)) as [<- | Hne].
      * rewrite lookup_insert_eq in Hi. discriminate.
      * rewrite lookup_insert_ne in Hi by exact Hne. eapply Hp, Hi.
  - (* ARead *)
    destruct (reader s) as [rho | | | |] eqn:Hrd; try discriminate.
    destruct (readLoop_body (client s) rho f) as [rho' | rho' ch reply reqID | rho']
      eqn:Hbody; injection Hstep as <-;
      (apply (matching_transfer s); cbn;
       [exact Hinv | tauto | reflexivity | auto | exact Hw | | exact Hm | exact Hp]);
      try discriminate.
    intros ? ? ? ? [= <- <- <- <-].
    apply readLoop_body_reply in Hbody as (Hk & Hg & _).
    split; [exact Hg | now apply Ht].
  - (* AHandoffReply *)
    destruct (callers s !! j) as [[| | m req |]|] eqn:Hj; try discriminate.
    destruct (reader s) as [| rho ch reply reqID | | |] eqn:Hrd; try discriminate.
    destruct (decide _) as [Hch |]; [| discriminate].
    injection Hstep as <-.
    destruct (Hr _ _ _ _ eq_refl) as [Hg [_ Hkey]].
    assert (Hreq : holds (callers s) req)
      by (exists j, (CSelecting m req); auto).
    apply (matching_transfer s); cbn;
      [exact Hinv | | reflexivity | auto | exact Hw | discriminate | | ].
    + intros r. apply holds_insert_same. now rewrite Hj.
    + intros i cl r Hi. destruct (decide (j = i)) as [<- | Hne].
      * rewrite lookup_insert_eq in Hi. injection Hi as <-. cbn.
        intros [= <-]. now apply (Hm j (CSelecting m req)).
      * rewrite lookup_insert_ne in Hi by exact Hne. now apply (Hm i).
    + intros i message r reply' err' Hi. destruct (decide (j = i)) as [<- | Hne].
      * rewrite lookup_insert_eq in Hi. injection Hi as <- <- <- <-.
        rewrite (Hkey req Hreq Hch). exact Hg.
      * rewrite lookup_insert_ne in Hi by exact Hne. eapply Hp, Hi.
  - (* ADelete *)
    destruct (reader s) as [| | rho reqID | |] eqn:Hrd; try discriminate.
    injection Hstep as <-.
    apply (matching_transfer s); cbn;
      [exact Hinv | tauto | reflexivity | | exact Hw | discriminate | exact Hm | exact Hp].
    intros k ch Hk. apply lookup_delete_Some in Hk. tauto.
  - (* ALeave *)
    destruct (reader s) as [| | | rho |] eqn:Hrd; try discriminate.
    injection Hstep as <-.
    apply (matching_transfer s); cbn;
      [exact Hinv | tauto | reflexivity | auto | exact Hw | discriminate | exact Hm | exact Hp].
  - (* AClose *)
    unfold Close in Hstep. cbn in Hstep.
    destruct (conn (client s)); [| discriminate].
    injection Hstep as <-.
    apply (matching_transfer s); cbn;
      [exact Hinv | tauto | reflexivity | auto | exact Hw | exact Hr | exact Hm | exact Hp].
Qed.

Lemma matching_init (addr : string) : matching (sys_init addr).
Proof.
  constructor; cbn.
  - intros req (i & cl & Hi & _). now rewrite lookup_empty in Hi.
  - intros key ch Hk. now rewrite lookup_empty in Hk.
  - discriminate.
  - discriminate.
  - intros i cl req Hi. now rewrite lookup_empty in Hi.
  - intros i message req reply err Hi. now rewrite lookup_empty in Hi.
Qed.

Lemma matching_run (acts : list Action) (s s' : System) :
  matching s -> run acts s = Some s' -> matching s'.
Proof.
  revert s. induction acts as [|a acts IH]; intros s Hinv Hrun; cbn in Hrun.
  - now injection Hrun as <-.
  - destruct (sys_step a s) as [s1|] eqn:Hstep; [| discriminate].
    eapply IH; [| exact Hrun]. eapply matching_step; eassumption.
Qed.

(** C2. In every state the connected client can reach, under every
    schedule and whatever the peer sends: a reply that [Send] has
    returned carries the correlation key of the request that call
    built, which is the STAN of the caller's message as sent; and when
    [readLoop] stands at [replyCh <- message], the message carries the
    key under which it looked the channel up, and that channel belongs
    only to requests of that key. *)
Theorem reply_matches_request (addr : string) (acts : list Action) (s : System) :
  run acts (sys_init addr) = Some s ->
  (forall i message req reply err,
     callers s !! i = Some (CReturned message (Some req) (Some reply) err) ->
     GetString reply 11 = (req_requestID req, None) /\
     GetString message 11 = (req_requestID req, None) /\
     requestID reply = requestID message) /\
  (forall rho ch reply reqID,
     reader s = RReplying rho ch reply reqID ->
     requestID reply = (reqID, None) /\
     forall j message req,
       callers s !! j = Some (CSelecting message req) -> replyCh req = ch ->
       req_requestID req = reqID).
Proof.
  intros Hrun.
  pose proof (matching_run _ _ _ (matching_init addr) Hrun) as [Hf Ht Hw Hr Hm Hp].
  split.
  - intros i message req reply err Hi.
    pose proof (Hp _ _ _ _ _ Hi) as Hreply.
    pose proof (Hm _ _ req Hi eq_refl) as Hmsg. cbn in Hmsg.
    repeat split; try assumption.
    unfold requestID. now rewrite Hreply, Hmsg.
  - intros rho ch reply reqID Hrd.
    destruct (Hr _ _ _ _ Hrd) as [Hg [_ Hkey]].
    split; [unfold requestID; now rewrite Hg |].
    intros j message req Hj Hch. apply Hkey; [| exact Hch].
    exists j, (CSelecting message req). auto.
Qed.

(** ** The error variable of readLoop *)

(** Whatever an iteration reads, the block of the loop is left with the
    enclosing declaration of [err] as it was found: the four
    assignments of the body all go to the declaration of the body. *)
Lemma readLoop_body_env (c : Client) (rho : ErrEnv) (f : Frame) :
  read_env (readLoop_body c rho f) = rho.
Proof.
  unfold readLoop_body, err_not_nil, Scope.enter, Scope.declare.
  cbn [Scope.lookup Scope.assign].
  destruct (header_err f) as [e|]; [reflexivity |].
  destruct (raw_err f) as [e|]; [reflexivity |].
  destruct (Unpack (raw f)) as [m [e|]]; cbn [Scope.lookup Scope.assign];
    [reflexivity |].
  destruct (requestID m) as [k [e|]]; [reflexivity |].
  destruct (respMap c !! k); reflexivity.
Qed.

Lemma outer_err_step (a : Action) (s s' : System) :
  (stderr s = [] /\ forall rho, reader_env (reader s) = Some rho -> rho = readLoop_entry) ->
  sys_step a s = Some s' ->
  stderr s' = [] /\ forall rho, reader_env (reader s') = Some rho -> rho = readLoop_entry.
Proof.
  intros [Herr Henv] Hstep.
  destruct a as [j m | j | j | | e | j | f | j | | | e]; cbn in Hstep.
  - destruct (callers s !! j); [discriminate |].
    destruct (closing (client s)); injection Hstep as <-; auto.
  - destruct (callers s !! j) as [[m | | |]|]; try discriminate.
    destruct (Send_prepare _ _ m) as [[[c1 n1] m1] pre].
    injection Hstep as <-; auto.
  - destruct (callers s !! j) as [[| m r | |]|]; try discriminate.
    destruct (writer s); try discriminate. injection Hstep as <-; auto.
  - destruct (writer s); try discriminate. injection Hstep as <-; auto.
  - destruct (writer s); try discriminate.
    destruct e; injection Hstep as <-; auto.
  - destruct (callers s !! j) as [[| | m r |]|]; try discriminate.
    destruct (writer s); try discriminate.
    destruct (decide _); [| discriminate]. injection Hstep as <-; auto.
  - destruct (reader s) as [rho | | | |] eqn:Hrd; try discriminate.
    specialize (Henv rho eq_refl). subst rho.
    pose proof (readLoop_body_env (client s) readLoop_entry f) as Hbody.
    destruct (readLoop_body _ _ f); cbn in Hbody; subst;
      injection Hstep as <-; cbn; split; auto; congruence.
  - destruct (callers s !! j) as [[| | m r |]|]; try discriminate.
    destruct (reader s) as [| rho ch reply reqID | | |] eqn:Hrd; try discriminate.
    destruct (decide _); [| discriminate]. injection Hstep as <-; cbn.
    split; [exact Herr |]. intros rho' [= <-]. now apply Henv.
  - destruct (reader s) as [| | rho reqID | |] eqn:Hrd; try discriminate.
    injection Hstep as <-; cbn.
    split; [exact Herr |]. intros rho' [= <-]. now apply Henv.
  - destruct (reader s) as [| | | rho |] eqn:Hrd; try discriminate.
    specialize (Henv rho eq_refl). subst rho.
    injection Hstep as <-; cbn. rewrite Herr. split; [reflexivity | discriminate].
  - destruct (Close _ _) as [c1 [r|]]; [| discriminate]. injection Hstep as <-; auto.
Qed.

(** C9. Under every schedule and whatever the reads return, the
    declaration of [err] in the body of [readLoop] stays nil: when the
    loop is left the test [err != nil] is false, nothing is printed on
    standard error at any time, and the environment the loop is left
    with holds no trace of the error that ended it. *)
Theorem readLoop_outer_err_nil (addr : string) (acts : list Action) (s : System) :
  run acts (sys_init addr) = Some s ->
  stderr s = [] /\
  (forall rho, reader s = RLeaving rho ->
     rho = readLoop_entry /\ Scope.lookup rho = Some None /\
     err_not_nil rho = false /\ readLoop_exit (client s) rho = []) /\
  (forall c f rho, readLoop_body c readLoop_entry f = ReadBreak rho ->
     rho = readLoop_entry).
Proof.
  intros Hrun.
  assert (Hinv : stderr s = [] /\
            forall rho, reader_env (reader s) = Some rho -> rho = readLoop_entry).
  { revert Hrun.
    assert (H0 : stderr (sys_init addr) = [] /\
              forall rho, reader_env (reader (sys_init addr)) = Some rho ->
                          rho = readLoop_entry)
      by (split; [reflexivity | cbn; congruence]).
    revert H0. generalize (sys_init addr).
    induction acts as [|a acts IH]; intros s0 H0 Hrun; cbn in Hrun.
    - now injection Hrun as <-.
    - destruct (sys_step a s0) as [s1|] eqn:Hstep; [| discriminate].
      eapply IH; [| exact Hrun]. eapply outer_err_step; eassumption. }
  destruct Hinv as [Herr Henv].
  split; [exact Herr |]. split.
  - intros rho Hrd. rewrite Hrd in Henv. specialize (Henv rho eq_refl). subst rho.
    repeat split; reflexivity.
  - intros c f rho Hbody.
    pose proof (readLoop_body_env c readLoop_entry f) as H.
    rewrite Hbody in H. exact H.
Qed.

(** ** Messages nobody waits for *)

(** An iteration of [readLoop] on a well-formed message whose key is
    not in the table changes nothing at all. *)
Lemma readLoop_unmatched (s : System) (rho : ErrEnv) (f : Frame)
    (message : Message) (reqID : string) :
  reader s = RReading rho ->
  header_err f = None -> raw_err f = None ->
  Unpack (raw f) = (message, None) ->
  GetString message 11 = (reqID, None) ->
  respMap (client s) !! reqID = None ->
  readLoop_body (client s) rho f = ReadNext rho /\
  sys_step (ARead f) s = Some s.
Proof.
  intros Hrd Hh Hr Hu Hg Hk.
  assert (Hbody : readLoop_body (client s) rho f = ReadNext rho).
  { unfold readLoop_body, err_not_nil, Scope.enter, Scope.declare, requestID.
    rewrite Hh, Hr. cbn [Scope.lookup Scope.assign]. rewrite Hu.
    cbn [Scope.lookup Scope.assign]. rewrite Hg, Hk. reflexivity. }
  split; [exact Hbody |].
  cbn. rewrite Hrd, Hbody. destruct s; cbn in *. now subst.
Qed.

(** ** A write that fails *)

(** The three moves of [writeLoop] on a request whose write fails. *)
Lemma writeLoop_failed_write (s : System) (i : nat) (message : Message)
    (req : request) (e : error) :
  writer s = WRegistering req ->
  callers s !! i = Some (CSelecting message req) ->
  exists s',
    run [ARegister; AWrite (Some e); AHandoffError i] s = Some s' /\
    writeLoop_body (client s) req (Some e) = (client s', Some (errCh req, e)) /\
    writer s' = WReceiving /\
    callers s' !! i = Some (CReturned message (Some req) None (Some e)) /\
    respMap (client s') !! req_requestID req = Some (replyCh req) /\
    outbound s' = outbound s.
Proof.
  intros Hw Hi. eexists. split.
  - cbn. rewrite Hw. cbn. rewrite Hi.
    rewrite decide_True by reflexivity. reflexivity.
  - cbn. repeat split.
    + apply lookup_insert_eq.
    + apply lookup_insert_eq.
Qed.

(** ** A call left behind *)

Lemma abandoned_step (a : Action) (i : nat) (message : Message) (req : request)
    (s s' : System) :
  abandoned i message req s ->
  sys_step a s = Some s' ->
  abandoned i message req s' /\ respMap (client s') = respMap (client s).
Proof.
  intros (Hclosing & Hconn & Hrd & Hwr & Hi & Hrest) Hstep.
  destruct a as [j m | j | j | | e | j | f | j | | | e]; cbn in Hstep;
    rewrite ?Hrd, ?Hwr in Hstep; try discriminate.
  - destruct (callers s !! j) eqn:Hj; [discriminate |].
    rewrite Hclosing in Hstep. injection Hstep as <-.
    assert (j <> i) by congruence.
    split; [| reflexivity]. unfold abandoned; cbn.
    repeat split; try assumption.
    + now rewrite lookup_insert_ne.
    + intros j' cl Hj' Hne. destruct (decide (j = j')) as [<- | Hne'].
      * rewrite lookup_insert_eq in Hj'. injection Hj' as <-. eauto.
      * rewrite lookup_insert_ne in Hj' by exact Hne'. eauto.
  - destruct (callers s !! j) as [[m | | |]|] eqn:Hj; try discriminate.
    destruct (decide (j = i)) as [-> | Hne]; [congruence |].
    destruct (Hrest _ _ Hj Hne) as (? & ? & ? & ? & [=]).
  - destruct (callers s !! j) as [[| m r | |]|] eqn:Hj; try discriminate.
    destruct (decide (j = i)) as [-> | Hne]; [congruence |].
    destruct (Hrest _ _ Hj Hne) as (? & ? & ? & ? & [=]).
  - destruct (callers s !! j) as [[| | m r |]|]; discriminate.
  - destruct (callers s !! j) as [[| | m r |]|]; discriminate.
  - unfold Close in Hstep. cbn in Hstep.
    destruct (conn (client s)) eqn:Hc; [| discriminate].
    injection Hstep as <-. split; [| reflexivity].
    unfold abandoned; cbn. rewrite Hc. repeat split; try assumption; try discriminate.
Qed.

Lemma abandoned_run (acts : list Action) (i : nat) (message : Message)
    (req : request) (s s' : System) :
  abandoned i message req s ->
  run acts s = Some s' ->
  abandoned i message req s' /\ respMap (client s') = respMap (client s).
Proof.
  revert s. induction acts as [|a acts IH]; intros s Hab Hrun; cbn in Hrun.
  - injection Hrun as <-. auto.
  - destruct (sys_step a s) as [s1|] eqn:Hstep; [| discriminate].
    destruct (abandoned_step _ _ _ _ _ _ Hab Hstep) as [Hab1 Hmap1].
    destruct (IH _ Hab1 Hrun) as [Hab' Hmap']. split; [exact Hab' | congruence].
Qed.

(** The end of [readLoop] and [Close] take nothing out of the table and
    wake nobody. *)
Lemma shutdown_moves_drain_nothing (s s' : System) (err : option error) :
  sys_step ALeave s = Some s' \/ sys_step (AClose err) s = Some s' ->
  respMap (client s') = respMap (client s) /\ callers s' = callers s /\
  writer s' = writer s.
Proof.
  intros [Hstep | Hstep]; cbn in Hstep.
  - destruct (reader s); try discriminate. injection Hstep as <-. auto.
  - unfold Close in Hstep. cbn in Hstep.
    destruct (conn (client s)); [| discriminate]. injection Hstep as <-. auto.
Qed.

(** ** What Send does to the client *)

Lemma Sprintf_06d_nonempty (n : Z) : Fmt.Sprintf_06d n <> EmptyString.
Proof.
  unfold Fmt.Sprintf_06d. destruct (n <? 0); [discriminate |].
  intros H. apply (f_equal String.length) in H.
  unfold Fmt.pad0 in H.
  rewrite FmtFacts.length_append, FmtFacts.zeros_length in H.
  cbn [String.length] in H. lia.
Qed.

Lemma setMessageSTAN_client (c : Client) (message : Message) :
  fst (fst (setMessageSTAN c message)) = c \/
  (fst (GetString message 11) = EmptyString /\
   fst (fst (setMessageSTAN c message)) = fst (getSTAN c)).
Proof.
  unfold setMessageSTAN.
  destruct (GetString message 11) as [s [e|]]; [now left |].
  destruct (String.eqb_spec s EmptyString) as [-> | Hne].
  - right. split; [reflexivity |].
    destruct (getSTAN c) as [c1 g]. destruct (Field message 11 g) as [m1 [e|]]; reflexivity.
  - left. destruct (Field message 11 s) as [m1 [e|]]; reflexivity.
Qed.

Lemma Send_prepare_publish (c c' : Client) (next next' : nat)
    (message message' : Message) (req : request) :
  Send_prepare c next message = (c', next', message', SendPublish req) ->
  exists packed header,
    snd (setMessageSTAN c message) = None /\
    Pack message' = (packed, None) /\
    HeaderWriteTo (length packed) = (header, None) /\
    requestID message' = (req_requestID req, None) /\
    req = mkRequest (header ++ packed) (req_requestID req) (Chan next) (Chan (next + 1)).
Proof.
  unfold Send_prepare.
  destruct (setMessageSTAN c message) as [[c1 m1] [e|]]; [discriminate |].
  destruct (Pack m1) as [packed [e|]] eqn:Hp; [discriminate |].
  destruct (HeaderWriteTo (length packed)) as [header [e|]] eqn:Hh; [discriminate |].
  destruct (requestID m1) as [reqID [e|]] eqn:Hid; [discriminate |].
  intros [= <- <- <- <-]. exists packed, header. cbn. auto.
Qed.

(** X1. Whatever the client, the message and the codec do, [Send]
    leaves the table, the closing flag and the connection alone and
    moves the counter by at most one allocation.  When it returns
    before the handoff it returns a nil reply with a non-nil error and
    has made no channel; when it reaches the handoff the client was
    open, two new channels were made, and the request carries the
    length header followed by the packed message, under the STAN of
    the message as sent. *)
Theorem Send_outcome (c : Client) (next : nat) (message : Message) :
  let '(c', next', message', pre) := Send c next message in
  respMap c' = respMap c /\ closing c' = closing c /\ conn c' = conn c /\
  (c' = c \/ c' = fst (getSTAN c)) /\
  match pre with
  | SendReturn resp err => resp = None /\ err <> None /\ next' = next
  | SendPublish req =>
      closing c = false /\ next' = (next + 2)%nat /\
      replyCh req = Chan next /\ errCh req = Chan (next + 1) /\
      requestID message' = (req_requestID req, None) /\
      exists packed header,
        Pack message' = (packed, None) /\
        HeaderWriteTo (length packed) = (header, None) /\
        rawMessage req = header ++ packed
  end.
Proof.
  unfold Send. destruct (closing c) eqn:Hclosing.
  - repeat split; auto; discriminate.
  - destruct (Send_prepare c next message) as [[[c1 n1] m1] pre] eqn:Hprep.
    pose proof (Send_prepare_setMessageSTAN c next message) as Hsm.
    rewrite Hprep in Hsm. cbn in Hsm.
    pose proof (setMessageSTAN_client c message) as Hcl.
    rewrite <- Hsm in Hcl. cbn [fst] in Hcl.
    pose proof (Send_prepare_cases _ _ _ _ _ _ _ Hprep) as (Hmap & Hcg & Hconn & Hpre).
    split; [exact Hmap |]. split; [congruence |]. split; [exact Hconn |].
    split; [tauto |].
    destruct pre as [resp err | req].
    + tauto.
    + destruct Hpre as (-> & Hr & He & _).
      destruct (Send_prepare_publish _ _ _ _ _ _ _ Hprep)
        as (packed & header & _ & Hp & Hh & Hid & Hreq).
      repeat split; try assumption.
      exists packed, header. repeat split; try assumption.
      rewrite Hreq. reflexivity.
Qed.

(** X2. A message without a STAN whose packing fails: [Send] returns
    the packing error, no request is built, but the STAN has been
    taken from the counter and written into the caller's message. *)
Theorem Send_pack_failure_consumes_STAN
    (c : Client) (next : nat) (message message' : Message) (e : error) :
  closing c = false ->
  GetString message 11 = (EmptyString, None) ->
  Field message 11 (snd (getSTAN c)) = (message', None) ->
  snd (Pack message') = Some e ->
  Send c next message =
    (fst (getSTAN c), next, message',
     SendReturn None (Some (Errorf "packing message: " e))) /\
  stan (fst (getSTAN c)) <> stan c.
Proof.
  intros Hopen Hget Hfield Hpack.
  split; [| apply getSTAN_moves].
  unfold Send, Send_prepare, setMessageSTAN.
  rewrite Hopen, Hget. cbn [String.eqb].
  destruct (getSTAN c) as [c1 g]. cbn [fst snd] in *.
  rewrite Hfield.
  destruct (Pack message') as [packed [e'|]]; cbn in Hpack; [| discriminate].
  now injection Hpack as ->.
Qed.

(** X3. With a codec whose field 11 reads back what was written, a
    request that [Send] hands to [writeLoop] never has an empty key:
    the key is the STAN the caller supplied, or the one [getSTAN]
    generated when the caller supplied none. *)
Theorem Send_key_never_empty
    (c c' : Client) (next next' : nat) (message message' : Message)
    (req : request) (stan0 : string) :
  (forall m v m', Field m 11 v = (m', None) -> GetString m' 11 = (v, None)) ->
  GetString message 11 = (stan0, None) ->
  Send c next message = (c', next', message', SendPublish req) ->
  req_requestID req <> EmptyString /\
  req_requestID req =
    (if decide (stan0 = EmptyString) then snd (getSTAN c) else stan0) /\
  GetString message' 11 = (req_requestID req, None).
Proof.
  intros Hlaw Hget Hsend.
  unfold Send in Hsend. destruct (closing c); [discriminate |].
  pose proof (Send_prepare_setMessageSTAN c next message) as Hsm.
  rewrite Hsend in Hsm. cbn in Hsm.
  destruct (Send_prepare_publish _ _ _ _ _ _ _ Hsend)
    as (packed & header & Hok & _ & _ & Hid & _).
  apply requestID_ok in Hid.
  rewrite (setMessageSTAN_eq c message stan0 Hget) in Hsm, Hok.
  assert (Hused : req_requestID req =
            if decide (stan0 = EmptyString) then snd (getSTAN c) else stan0).
  { destruct (decide (stan0 = EmptyString)) as [Hempty | Hgiven];
      cbn [fst snd] in Hsm, Hok.
    - destruct (Field message 11 (snd (getSTAN c))) as [m2 [e0|]] eqn:Hf;
        [discriminate |].
      cbn [fst] in Hsm. injection Hsm as _ ->.
      apply Hlaw in Hf. congruence.
    - destruct (Field message 11 stan0) as [m2 [e0|]] eqn:Hf; [discriminate |].
      cbn [fst] in Hsm. injection Hsm as _ ->.
      apply Hlaw in Hf. congruence. }
  split; [| split; [exact Hused | exact Hid]].
  rewrite Hused. destruct (decide (stan0 = EmptyString)) as [Hempty | Hgiven];
    [| assumption].
  unfold getSTAN. cbn [snd]. apply Sprintf_06d_nonempty.
Qed.

(** ** When readLoop stops, and when it finds *)

Lemma readLoop_body_found (c : Client) (rho : ErrEnv) (f : Frame)
    (message : Message) (reqID : string) (ch : chan Message) :
  header_err f = None -> raw_err f = None ->
  Unpack (raw f) = (message, None) ->
  GetString message 11 = (reqID, None) ->
  respMap c !! reqID = Some ch ->
  readLoop_body c rho f = ReadReply rho ch message reqID.
Proof.
  intros Hh Hr Hu Hg Hk.
  unfold readLoop_body, err_not_nil, Scope.enter, Scope.declare, requestID.
  rewrite Hh, Hr. cbn [Scope.lookup Scope.assign]. rewrite Hu.
  cbn [Scope.lookup Scope.assign]. rewrite Hg, Hk. reflexivity.
Qed.

(** X4. An iteration of [readLoop] leaves the loop exactly when the
    header read fails, or the body read fails, or the bytes do not
    unpack, or field 11 of the unpacked message cannot be read;
    neither the table nor a missing entry ever ends the loop. *)
Theorem readLoop_breaks_iff (c : Client) (rho : ErrEnv) (f : Frame) :
  readLoop_body c rho f = ReadBreak rho <->
  header_err f <> None \/ raw_err f <> None \/
  snd (Unpack (raw f)) <> None \/
  snd (GetString (fst (Unpack (raw f))) 11) <> None.
Proof.
  unfold readLoop_body, err_not_nil, Scope.enter, Scope.declare, requestID.
  cbn [Scope.lookup Scope.assign].
  destruct (header_err f) as [e|]; [split; [intros _; left; discriminate | reflexivity] |].
  destruct (raw_err f) as [e|];
    [split; [intros _; right; left; discriminate | reflexivity] |].
  destruct (Unpack (raw f)) as [m [e|]]; cbn [Scope.lookup Scope.assign fst snd];
    [split; [intros _; right; right; left; discriminate | reflexivity] |].
  destruct (GetString m 11) as [k [e|]]; cbn [snd];
    [split; [intros _; right; right; right; discriminate | reflexivity] |].
  destruct (respMap c !! k); (split; [discriminate | intros [H | [H | [H | H]]]; congruence]).
Qed.

(** ** Closing twice, and connecting again *)

(** X5. [Connect] assigns the connection and nothing else: on a client
    that was closed the flag stays up whether dialing succeeds or
    not, so every later [Send] still returns [ErrConnectionClosed];
    the table and the counter are kept as well. *)
Theorem Connect_does_not_reopen
    (c : Client) (addr : string) (dial : string -> DialResult)
    (next : nat) (message : Message) :
  closing c = true ->
  let c' := fst (fst (Connect c addr dial)) in
  closing c' = true /\ respMap c' = respMap c /\ stan c' = stan c /\
  Send c' next message = (c', next, message, SendReturn None (Some ErrConnectionClosed)).
Proof.
  intros Hclosing. unfold Connect.
  destruct (dial addr) as [err | k]; cbn [fst]; unfold Send;
    cbn [closing set_conn]; rewrite Hclosing; auto.
Qed.

(** X6. A second [Close] changes nothing in the client and is not
    refused by the client: on a connected client it returns whatever
    closing the connection again returns.  Neither call touches the
    table or the counter. *)
Theorem Close_twice (c : Client) (first second : option error) :
  fst (Close (fst (Close c first)) second) = fst (Close c first) /\
  (forall k, conn c = Some k ->
     snd (Close (fst (Close c first)) second) = CloseReturn second) /\
  (conn c = None -> snd (Close (fst (Close c first)) second) = ClosePanic) /\
  respMap (fst (Close c first)) = respMap c /\
  stan (fst (Close c first)) = stan c.
Proof.
  unfold Close. cbn [conn set_closing].
  destruct (conn c) as [k|] eqn:Hc; cbn [fst snd conn closing respMap stan set_closing];
    rewrite ?Hc; cbn [fst snd set_closing closing conn respMap stan].
  - repeat split; try reflexivity; try discriminate.
  - repeat split; try reflexivity; try discriminate.
Qed.

(** ** The requests, the channels and the bytes written *)

Lemma getSTAN_range (c : Client) :
  0 <= stan c <= 999999 -> 0 <= stan (fst (getSTAN c)) <= 999999.
Proof.
  intros Hc. rewrite getSTAN_next by exact Hc. cbn [fst stan set_stan].
  pose proof (Z.mod_pos_bound (stan c + 1) 1000000). lia.
Qed.

Lemma Send_prepare_stan (c c' : Client) (next next' : nat)
    (message message' : Message) (pre : SendPrefix) :
  Send_prepare c next message = (c', next', message', pre) ->
  0 <= stan c <= 999999 -> 0 <= stan c' <= 999999.
Proof.
  intros Hprep Hc.
  pose proof (Send_prepare_setMessageSTAN c next message) as Hsm.
  rewrite Hprep in Hsm. cbn in Hsm.
  pose proof (setMessageSTAN_client c message) as Hcl.
  rewrite <- Hsm in Hcl. cbn [fst] in Hcl.
  destruct Hcl as [-> | [_ ->]]; [exact Hc | now apply getSTAN_range].
Qed.

(** A move that replaces the entry of goroutine [j] by one with the
    same request and message (or that gives [j] an entry without a
    request) keeps the invariant. *)
Lemma wellformed_update (addr : string) (s s' : System) (j : nat) (cl' : Caller) :
  wellformed addr s ->
  conn (client s') = conn (client s) ->
  0 <= stan (client s') <= 999999 ->
  nextChan s' = nextChan s ->
  callers s' = <[j := cl']> (callers s) ->
  outbound s' = outbound s ->
  callers s !! j ≫= caller_req = caller_req cl' ->
  (forall cl, callers s !! j = Some cl -> is_Some (caller_req cl) ->
              caller_message cl' = caller_message cl) ->
  (forall req, writer_req (writer s') = Some req -> holds (callers s') req) ->
  wellformed addr s'.
Proof.
  intros [Hconn Hstan Hreq Hdis Hwr Hob] Hc' Hs' Hn' Hcs' Hob' Hsame Hmsg Hw'.
  assert (Hold : forall i cl req,
            callers s' !! i = Some cl -> caller_req cl = Some req ->
            exists cl0, callers s !! i = Some cl0 /\ caller_req cl0 = Some req /\
                        caller_message cl0 = caller_message cl).
  { intros i cl req Hi Hr. rewrite Hcs' in Hi.
    destruct (decide (j = i)) as [<- | Hne].
    - rewrite lookup_insert_eq in Hi. injection Hi as <-.
      rewrite Hr in Hsame.
      destruct (callers s !! j) as [cl0|] eqn:Hj; [| discriminate].
      exists cl0. cbn in Hsame. split; [reflexivity |]. split; [exact Hsame |].
      symmetry. apply Hmsg; [reflexivity | rewrite Hsame; eauto].
    - rewrite lookup_insert_ne in Hi by exact Hne. eauto. }
  constructor.
  - congruence.
  - exact Hs'.
  - intros i cl req Hi Hr.
    destruct (Hold _ _ _ Hi Hr) as (cl0 & Hi0 & Hr0 & Hm0).
    rewrite Hn', <- Hm0. now apply (Hreq i).
  - intros i1 i2 cl1 cl2 r1 r2 H1 H2 Hr1 Hr2 Hch.
    destruct (Hold _ _ _ H1 Hr1) as (c1 & H10 & Hr10 & _).
    destruct (Hold _ _ _ H2 Hr2) as (c2 & H20 & Hr20 & _).
    eapply Hdis; eassumption.
  - exact Hw'.
  - intros frame Hin. rewrite Hob' in Hin.
    destruct (Hob _ Hin) as (i & cl & req & Hi & Hr & Hf).
    rewrite Hcs'. destruct (decide (j = i)) as [<- | Hne].
    + exists j, cl', req. rewrite lookup_insert_eq.
      rewrite Hi in Hsame. cbn in Hsame. split; [reflexivity |]. split; congruence.
    + exists i, cl, req. rewrite lookup_insert_ne by exact Hne. auto.
Qed.

(** A move that leaves the calls and the channel counter alone. *)
Lemma wellformed_same (addr : string) (s s' : System) :
  wellformed addr s ->
  conn (client s') = conn (client s) ->
  stan (client s') = stan (client s) ->
  nextChan s' = nextChan s ->
  callers s' = callers s ->
  (forall frame, In frame (outbound s') ->
     In frame (outbound s) \/
     exists req, writer_req (writer s) = Some req /\ frame = rawMessage req) ->
  (forall req, writer_req (writer s') = Some req -> writer_req (writer s) = Some req) ->
  wellformed addr s'.
Proof.
  intros [Hconn Hstan Hreq Hdis Hwr Hob] Hc' Hs' Hn' Hcs' Hob' Hw'.
  constructor; rewrite ?Hcs', ?Hn', ?Hs'; try assumption.
  - congruence.
  - intros req Hr. now apply Hwr, Hw'.
  - intros frame Hin. destruct (Hob' _ Hin) as [Hold | (req & Hr & ->)].
    + now apply Hob.
    + destruct (Hwr _ Hr) as (i & cl & Hi & Hcr). exists i, cl, req. auto.
Qed.

Lemma wellformed_step (addr : string) (a : Action) (s s' : System) :
  wellformed addr s -> sys_step a s = Some s' -> wellformed addr s'.
Proof.
  intros Hinv Hstep.
  pose proof Hinv as [Hconn Hstan Hreq Hdis Hwr Hob].
  destruct a as [j m | j | j | | e | j | f | j | | | e]; cbn in Hstep.
  - (* ASend *)
    destruct (callers s !! j) eqn:Hj; [discriminate |].
    destruct (closing (client s)); injection Hstep as <-;
      (eapply (wellformed_update addr s); cbn;
       [exact Hinv | reflexivity | exact Hstan | reflexivity | reflexivity | reflexivity
       | now rewrite Hj | intros cl; rewrite Hj; discriminate | ]);
      intros req Hr; apply holds_insert_same;
        [now rewrite Hj | now apply Hwr | now rewrite Hj | now apply Hwr].
  - (* APrepare *)
    destruct (callers s !! j) as [[m | | |]|] eqn:Hj; try discriminate.
    destruct (Send_prepare _ _ m) as [[[c1 n1] m1] pre] eqn:Hprep.
    pose proof (Send_prepare_stan _ _ _ _ _ _ _ Hprep Hstan) as Hstan1.
    pose proof (Send_prepare_cases _ _ _ _ _ _ _ Hprep) as (_ & _ & Hconn1 & Hpre).
    injection Hstep as <-.
    destruct pre as [resp err | req].
    + destruct Hpre as (-> & _ & _).
      eapply (wellformed_update addr s); cbn;
        [exact Hinv | exact Hconn1 | exact Hstan1 | reflexivity | reflexivity
        | reflexivity | now rewrite Hj | | ].
      * intros cl. rewrite Hj. intros [= <-] [r Hr]. discriminate.
      * intros req Hr. apply holds_insert_same; [now rewrite Hj | now apply Hwr].
    + destruct Hpre as (-> & _ & _ & _).
      destruct (Send_prepare_publish _ _ _ _ _ _ _ Hprep)
        as (packed & header & _ & Hp & Hh & Hid & Hreq').
      constructor; cbn.
      * congruence.
      * exact Hstan1.
      * intros i cl r Hi Hr. destruct (decide (j = i)) as [<- | Hne].
        -- rewrite lookup_insert_eq in Hi. injection Hi as <-.
           cbn in Hr. injection Hr as <-. cbn [caller_message].
           exists (nextChan s), packed, header. rewrite Hreq' at 1 2 4. cbn.
           repeat split; try assumption; lia.
        -- rewrite lookup_insert_ne in Hi by exact Hne.
           destruct (Hreq _ _ _ Hi Hr) as (n & pk & hd & H1 & H2 & H3 & H4).
           exists n, pk, hd. repeat split; try tauto; lia.
      * intros i1 i2 cl1 cl2 r1 r2 H1 H2 Hr1 Hr2 Hch.
        destruct (decide (j = i1)) as [<- | Hne1];
          destruct (decide (j = i2)) as [<- | Hne2]; try reflexivity.
        -- rewrite lookup_insert_eq in H1. injection H1 as <-.
           rewrite lookup_insert_ne in H2 by exact Hne2.
           cbn in Hr1. injection Hr1 as <-.
           destruct (Hreq _ _ _ H2 Hr2) as (n & _ & _ & Hn & _ & Hlt & _).
           rewrite Hreq' in Hch. cbn in Hch. rewrite Hn in Hch.
           injection Hch as Hch. lia.
        -- rewrite lookup_insert_eq in H2. injection H2 as <-.
           rewrite lookup_insert_ne in H1 by exact Hne1.
           cbn in Hr2. injection Hr2 as <-.
           destruct (Hreq _ _ _ H1 Hr1) as (n & _ & _ & Hn & _ & Hlt & _).
           rewrite Hreq' in Hch. cbn in Hch. rewrite Hn in Hch.
           injection Hch as Hch. lia.
        -- rewrite lookup_insert_ne in H1 by exact Hne1.
           rewrite lookup_insert_ne in H2 by exact Hne2.
           eapply Hdis; eassumption.
      * intros r Hr.
        apply (holds_insert_new _ _ _ req); [now rewrite Hj | reflexivity |].
        left. now apply Hwr.
      * intros frame Hin. destruct (Hob _ Hin) as (i & cl & r & Hi & Hr & Hf).
        exists i, cl, r. rewrite lookup_insert_ne; [auto |].
        intros <-. rewrite Hj in Hi. injection Hi as <-. discriminate.
  - (* AHandoffRequest *)
    destruct (callers s !! j) as [[| m req | |]|] eqn:Hj; try discriminate.
    destruct (writer s) eqn:Hwr'; try discriminate.
    injection Hstep as <-.
    eapply (wellformed_update addr s); cbn;
      [exact Hinv | reflexivity | exact Hstan | reflexivity | reflexivity | reflexivity
      | now rewrite Hj | | ].
    + intros cl. rewrite Hj. now intros [= <-] _.
    + intros r [= <-]. exists j, (CSelecting m req).
      rewrite lookup_insert_eq. auto.
  - (* ARegister *)
    destruct (writer s) as [| req | |] eqn:Hwr'; try discriminate.
    injection Hstep as <-.
    apply (wellformed_same addr s); cbn; auto. rewrite Hwr'. auto.
  - (* AWrite *)
    destruct (writer s) as [| | req |] eqn:Hwr'; try discriminate.
    destruct e as [e|]; injection Hstep as <-;
      apply (wellformed_same addr s); cbn; auto; rewrite ?Hwr'; auto;
      try discriminate.
    intros frame Hin. apply in_app_or in Hin. destruct Hin as [Hin | [<- | []]].
    + now left.
    + right. exists req. auto.
  - (* AHandoffError *)
    destruct (callers s !! j) as [[| | m req |]|] eqn:Hj; try discriminate.
    destruct (writer s) eqn:Hwr'; try discriminate.
    destruct (decide _); [| discriminate].
    injection Hstep as <-.
    eapply (wellformed_update addr s); cbn;
      [exact Hinv | reflexivity | exact Hstan | reflexivity | reflexivity | reflexivity
      | now rewrite Hj | | discriminate ].
    intros cl. rewrite Hj. now intros [= <-] _.
  - (* ARead *)
    destruct (reader s) as [rho | | | |] eqn:Hrd; try discriminate.
    destruct (readLoop_body (client s) rho f); injection Hstep as <-;
      apply (wellformed_same addr s); cbn; auto.
  - (* AHandoffReply *)
    destruct (callers s !! j) as [[| | m req |]|] eqn:Hj; try discriminate.
    destruct (reader s) as [| rho ch reply reqID | | |] eqn:Hrd; try discriminate.
    destruct (decide _); [| discriminate].
    injection Hstep as <-.
    eapply (wellformed_update addr s); cbn;
      [exact Hinv | reflexivity | exact Hstan | reflexivity | reflexivity | reflexivity
      | now rewrite Hj | | ].
    + intros cl. rewrite Hj. now intros [= <-] _.
    + intros r Hr. apply holds_insert_same; [now rewrite Hj | now apply Hwr].
  - (* ADelete *)
    destruct (reader s) as [| | rho reqID | |] eqn:Hrd; try discriminate.
    injection Hstep as <-. apply (wellformed_same addr s); cbn; auto.
  - (* ALeave *)
    destruct (reader s) as [| | | rho |] eqn:Hrd; try discriminate.
    injection Hstep as <-. apply (wellformed_same addr s); cbn; auto.
  - (* AClose *)
    unfold Close in Hstep. cbn in Hstep.
    destruct (conn (client s)); [| discriminate].
    injection Hstep as <-. apply (wellformed_same addr s); cbn; auto.
Qed.

Lemma wellformed_init (addr : string) : wellformed addr (sys_init addr).
Proof.
  constructor; cbn.
  - reflexivity.
  - lia.
  - intros i cl req Hi. now rewrite lookup_empty in Hi.
  - intros i j cli clj reqi reqj Hi. now rewrite lookup_empty in Hi.
  - discriminate.
  - intros frame [].
Qed.

Lemma wellformed_run (addr : string) (acts : list Action) (s s' : System) :
  wellformed addr s -> run acts s = Some s' -> wellformed addr s'.
Proof.
  revert s. induction acts as [|a acts IH]; intros s Hinv Hrun; cbn in Hrun.
  - now injection Hrun as <-.
  - destruct (sys_step a s) as [s1|] eqn:Hstep; [| discriminate].
    eapply IH; [| exact Hrun]. eapply wellformed_step; eassumption.
Qed.


(** X8. In every state a connected client reaches, two different
    calls never share a reply channel or an error channel. *)
Theorem channels_are_private (addr : string) (acts : list Action) (s : System)
    (i j : nat) (cli clj : Caller) (reqi reqj : request) :
  run acts (sys_init addr) = Some s ->
  callers s !! i = Some cli -> callers s !! j = Some clj ->
  caller_req cli = Some reqi -> caller_req clj = Some reqj ->
  i <> j ->
  replyCh reqi <> replyCh reqj /\ errCh reqi <> errCh reqj.
Proof.
  intros Hrun Hi Hj Hri Hrj Hne.
  pose proof (wellformed_run _ _ _ _ (wellformed_init addr) Hrun)
    as [_ _ Hreq Hdis _ _].
  assert (Hreply : replyCh reqi <> replyCh reqj).
  { intros Hch. apply Hne. eapply Hdis; eassumption. }
  split; [exact Hreply |].
  intros Hch. apply Hreply.
  destruct (Hreq _ _ _ Hi Hri) as (n & _ & _ & Hn & He & _).
  destruct (Hreq _ _ _ Hj Hrj) as (n' & _ & _ & Hn' & He' & _).
  rewrite He, He' in Hch. injection Hch as Hch.
  rewrite Hn, Hn'. f_equal. lia.
Qed.


(** X10. Everything the connection has accepted is a whole frame of
    one call: the length header of the packed message followed by the
    packed message itself, for the message of a call whose request
    went through [writeLoop], under the STAN of that message. *)
Theorem outbound_frames_are_whole (addr : string) (acts : list Action) (s : System) :
  run acts (sys_init addr) = Some s ->
  forall frame, In frame (outbound s) ->
  exists i cl req packed header,
    callers s !! i = Some cl /\ caller_req cl = Some req /\
    requestID (caller_message cl) = (req_requestID req, None) /\
    Pack (caller_message cl) = (packed, None) /\
    HeaderWriteTo (length packed) = (header, None) /\
    frame = header ++ packed.
Proof.
  intros Hrun frame Hin.
  pose proof (wellformed_run _ _ _ _ (wellformed_init addr) Hrun)
    as [_ _ Hreq _ _ Hob].
  destruct (Hob _ Hin) as (i & cl & req & Hi & Hr & ->).
  destruct (Hreq _ _ _ Hi Hr) as (n & packed & header & _ & _ & _ & Hid & Hp & Hh & Hraw).
  exists i, cl, req, packed, header. auto 10.
Qed.

(** ** Once the flag is up *)

Lemma closed_step (a : Action) (s s' : System) :
  closing (client s) = true ->
  sys_step a s = Some s' ->
  closing (client s') = true /\
  forall i, callers s !! i = None ->
    callers s' !! i = None \/ exists cl, callers s' !! i = Some cl /\ refused cl.
Proof.
  intros Hclosing Hstep.
  destruct a as [j m | j | j | | e | j | f | j | | | e]; cbn in Hstep.
  - destruct (callers s !! j) eqn:Hj; [discriminate |].
    rewrite Hclosing in Hstep. injection Hstep as <-. cbn.
    split; [exact Hclosing |]. intros i Hi.
    destruct (decide (j = i)) as [<- | Hne].
    + right. eexists. rewrite lookup_insert_eq. split; [reflexivity |].
      now exists m.
    + left. now rewrite lookup_insert_ne.
  - destruct (callers s !! j) as [[m | | |]|] eqn:Hj; try discriminate.
    destruct (Send_prepare _ _ m) as [[[c1 n1] m1] pre] eqn:Hprep.
    apply Send_prepare_cases in Hprep as (_ & Hcg & _).
    injection Hstep as <-. cbn. split; [congruence |].
    intros i Hi. left. rewrite lookup_insert_ne; [exact Hi | congruence].
  - destruct (callers s !! j) as [[| m r | |]|] eqn:Hj; try discriminate.
    destruct (writer s); try discriminate. injection Hstep as <-. cbn.
    split; [exact Hclosing |].
    intros i Hi. left. rewrite lookup_insert_ne; [exact Hi | congruence].
  - destruct (writer s); try discriminate. injection Hstep as <-. cbn. auto.
  - destruct (writer s); try discriminate.
    destruct e; injection Hstep as <-; cbn; auto.
  - destruct (callers s !! j) as [[| | m r |]|] eqn:Hj; try discriminate.
    destruct (writer s); try discriminate.
    destruct (decide _); [| discriminate]. injection Hstep as <-. cbn.
    split; [exact Hclosing |].
    intros i Hi. left. rewrite lookup_insert_ne; [exact Hi | congruence].
  - destruct (reader s); try discriminate.
    destruct (readLoop_body _ _ _); injection Hstep as <-; cbn; auto.
  - destruct (callers s !! j) as [[| | m r |]|] eqn:Hj; try discriminate.
    destruct (reader s); try discriminate.
    destruct (decide _); [| discriminate]. injection Hstep as <-. cbn.
    split; [exact Hclosing |].
    intros i Hi. left. rewrite lookup_insert_ne; [exact Hi | congruence].
  - destruct (reader s); try discriminate. injection Hstep as <-. cbn. auto.
  - destruct (reader s); try discriminate. injection Hstep as <-. cbn. auto.
  - unfold Close in Hstep. cbn in Hstep.
    destruct (conn (client s)); [| discriminate]. injection Hstep as <-. cbn. auto.
Qed.

(** X11. The closing flag is never lowered: once it is up it stays up
    under every schedule, and every call of [Send] made from then on
    ends as [(nil, ErrConnectionClosed)] without building a request. *)
Theorem closing_is_permanent (acts : list Action) (s s' : System) :
  closing (client s) = true ->
  run acts s = Some s' ->
  closing (client s') = true /\
  forall i cl, callers s !! i = None -> callers s' !! i = Some cl -> refused cl.
Proof.
  intros Hclosing Hrun.
  assert (H : closing (client s') = true /\
              forall i, callers s !! i = None ->
                callers s' !! i = None \/
                exists cl, callers s' !! i = Some cl /\ refused cl).
  { revert s Hclosing Hrun.
    induction acts as [|a acts IH]; intros s Hclosing Hrun; cbn in Hrun.
    - injection Hrun as <-. auto.
    - destruct (sys_step a s) as [s1|] eqn:Hstep; [| discriminate].
      destruct (closed_step _ _ _ Hclosing Hstep) as [Hc1 Hnew1].
      destruct (IH _ Hc1 Hrun) as [Hc' Hnew']. split; [exact Hc' |].
      intros i Hi. destruct (Hnew1 i Hi) as [Hnone | (cl & Hcl & [m ->])].
      + now apply Hnew'.
      + right. eexists. split; [| now exists m].
        clear IH Hnew' Hnew1 Hstep. revert s1 Hc1 Hcl Hrun.
        induction acts as [|b acts IHb]; intros s1 Hc1 Hcl Hrun; cbn in Hrun.
        * now injection Hrun as <-.
        * destruct (sys_step b s1) as [s2|] eqn:Hstep; [| discriminate].
          apply (IHb s2); [| eapply returned_stays; eassumption | exact Hrun].
          now destruct (closed_step _ _ _ Hc1 Hstep). }
  destruct H as [Hc' Hnew]. split; [exact Hc' |].
  intros i cl Hi Hi'. destruct (Hnew i Hi) as [Hnone | (cl' & Hcl' & Href)];
    congruence.
Qed.

(** ** When nobody delivers replies any more *)






(** ** A whole exchange *)

(** X14. The course of one exchange on an open client whose loops are
    idle: the call is prepared, handed to [writeLoop], registered and
    written; the peer's message with the same STAN is read, handed to
    the call and the entry deleted.  [Send] returns that message with
    a nil error, the frame was written once, both loops are back where
    they were, and the table is the table before without the key (so
    unchanged when the key was free). *)
Theorem exchange_completes
    (s : System) (i : nat) (message message' : Message) (c' : Client) (next' : nat)
    (req : request) (rho : ErrEnv) (f : Frame) (reply : Message) :
  closing (client s) = false ->
  callers s !! i = None ->
  writer s = WReceiving ->
  reader s = RReading rho ->
  Send_prepare (client s) (nextChan s) message = (c', next', message', SendPublish req) ->
  header_err f = None -> raw_err f = None ->
  Unpack (raw f) = (reply, None) ->
  GetString reply 11 = (req_requestID req, None) ->
  exists s',
    run [ASend i message; APrepare i; AHandoffRequest i; ARegister; AWrite None;
         ARead f; AHandoffReply i; ADelete] s = Some s' /\
    callers s' = <[i := CReturned message' (Some req) (Some reply) None]> (callers s) /\
    respMap (client s') = delete (req_requestID req) (respMap (client s)) /\
    (respMap (client s) !! req_requestID req = None ->
     respMap (client s') = respMap (client s)) /\
    outbound s' = outbound s ++ [rawMessage req] /\
    writer s' = WReceiving /\ reader s' = RReading rho /\ stderr s' = stderr s.
Proof.
  intros Hopen Hfresh Hw Hrd Hprep Hh Hr Hu Hg.
  pose proof (Send_prepare_cases _ _ _ _ _ _ _ Hprep) as (Hmap & _ & _ & _).
  assert (Hbody : readLoop_body (writeLoop_register c' req) rho f
                  = ReadReply rho (replyCh req) reply (req_requestID req)).
  { apply readLoop_body_found; try assumption.
    unfold writeLoop_register. cbn. apply lookup_insert_eq. }
  eexists. split.
  - cbn [run sys_step]. rewrite Hfresh, Hopen.
    cbn [run sys_step with_caller callers client nextChan writer reader].
    rewrite lookup_insert_eq, Hprep.
    cbn [run sys_step with_caller with_writer with_client with_reader
         callers client nextChan writer reader outbound stderr].
    rewrite lookup_insert_eq, Hw.
    cbn [run sys_step with_caller with_writer with_client with_reader
         callers client nextChan writer reader outbound stderr].
    rewrite Hrd, Hbody.
    cbn [run sys_step with_caller with_writer with_client with_reader
         callers client nextChan writer reader outbound stderr].
    rewrite lookup_insert_eq.
    rewrite decide_True by reflexivity.
    cbn [run sys_step with_caller with_writer with_client with_reader
         callers client nextChan writer reader outbound stderr].
    reflexivity.
  - cbn. rewrite !insert_insert_eq, Hmap, delete_insert_eq.
    repeat split; try reflexivity.
    intros Hnone. now apply delete_id.
Qed.

End ClientProofs.

(** * The model at work on the small codec *)

Import Wire.
#[local] Existing Instance Wire.codec.

(** The counter of a new client is 0: its first STAN is 000001. *)
Lemma getSTAN_cycle_witness :
  0 <= stan NewClient <= 999999 /\
  stan (fst (getSTAN NewClient)) = 1 /\
  nthSTAN 0 NewClient <> nthSTAN 1 NewClient.
Proof.
  assert (H : 0 <= stan NewClient <= 999999) by (simpl; lia).
  split; [exact H |].
  destruct (getSTAN_cycle NewClient H) as (H1 & _ & _ & _ & H5 & _).
  split; [exact H1 |].
  apply H5; simpl; lia.
Defined.

(** A message without a STAN gets the next one and moves the counter; a
    message with a STAN keeps it and leaves the counter alone. *)
Lemma setMessageSTAN_generates_iff_empty_witness :
  GetString purchase_123 11 = ("000123", None) /\
  (forall m v m', Field m 11 v = (m', None) -> GetString m' 11 = (v, None)) /\
  fst (setMessageSTAN NewClient purchase_123) = (NewClient, purchase_123) /\
  setMessageSTAN NewClient purchase =
    (set_stan 1 NewClient, mkMsg "0200" "000001", None).
Proof.
  assert (Hget : GetString purchase_123 11 = ("000123", None)) by reflexivity.
  assert (Hlaw : forall m v m', Field m 11 v = (m', None) ->
                                GetString m' 11 = (v, None)).
  { intros m v m' H. cbn in H. injection H as <-. reflexivity. }
  split; [exact Hget |]. split; [exact Hlaw |].
  destruct (setMessageSTAN_generates_iff_empty (codec := Wire.codec)
              NewClient purchase_123 _ Hget Hlaw)
    as (_ & _ & Hkeep & _).
  destruct (Hkeep ltac:(discriminate)) as [Hfst _].
  split; [exact Hfst | reflexivity].
Defined.

(** [Send] after [Close] on a connected client. *)
Lemma Send_closing_fails_fast_witness :
  closing (client (after [AClose None])) = true /\
  callers (after [AClose None]) !! 7%nat = None /\
  Send (client (after [AClose None])) 0 purchase =
    (client (after [AClose None]), 0%nat, purchase,
     SendReturn None (Some ErrConnectionClosed)) /\
  outbound (after [AClose None; ASend 7%nat purchase]) = [].
Proof.
  assert (H1 : closing (client (after [AClose None])) = true) by reflexivity.
  assert (H2 : callers (after [AClose None]) !! 7%nat = None) by reflexivity.
  split; [exact H1 |]. split; [exact H2 |].
  destruct (Send_closing_fails_fast (after [AClose None]) 7 purchase H1 H2)
    as [Hsend _].
  split; [exact Hsend | reflexivity].
Defined.

(** Two calls answered in the opposite order: each gets the reply of
    its own STAN. *)
Lemma reply_matches_request_witness :
  run out_of_order (sys_init addr0) = Some (after out_of_order) /\
  (exists req0 req1,
     callers (after out_of_order) !! 0%nat =
       Some (CReturned (mkMsg "0200" "000001") (Some req0)
                       (Some (reply_to "000001")) None) /\
     callers (after out_of_order) !! 1%nat =
       Some (CReturned (mkMsg "0200" "000002") (Some req1)
                       (Some (reply_to "000002")) None) /\
     GetString (reply_to "000001") 11 = (req_requestID req0, None) /\
     GetString (reply_to "000002") 11 = (req_requestID req1, None)).
Proof.
  assert (Hrun : run out_of_order (sys_init addr0) = Some (after out_of_order))
    by (vm_compute; reflexivity).
  split; [exact Hrun |].
  destruct (reply_matches_request addr0 out_of_order _ Hrun) as [Hret _].
  eexists. eexists.
  assert (H0 : callers (after out_of_order) !! 0%nat =
       Some (CReturned (mkMsg "0200" "000001") (Some _)
                       (Some (reply_to "000001")) None))
    by (vm_compute; reflexivity).
  assert (H1 : callers (after out_of_order) !! 1%nat =
       Some (CReturned (mkMsg "0200" "000002") (Some _)
                       (Some (reply_to "000002")) None))
    by (vm_compute; reflexivity).
  split; [exact H0 |]. split; [exact H1 |].
  split; [apply (Hret _ _ _ _ _ H0) | apply (Hret _ _ _ _ _ H1)].
Defined.

(** The read fails with EOF on an open client: the loop is left, and
    the error is neither in the variable tested nor printed. *)
Lemma readLoop_outer_err_nil_witness :
  run [ARead frame_eof] (sys_init addr0) = Some (after [ARead frame_eof]) /\
  header_err frame_eof = Some eof /\
  closing (client (after [ARead frame_eof])) = false /\
  reader (after [ARead frame_eof]) = RLeaving readLoop_entry /\
  stderr (after [ARead frame_eof; ALeave]) = [].
Proof.
  assert (Hrun : run [ARead frame_eof] (sys_init addr0)
                 = Some (after [ARead frame_eof])) by reflexivity.
  split; [exact Hrun |]. split; [reflexivity |]. split; [reflexivity |].
  destruct (readLoop_outer_err_nil addr0 _ _ Hrun) as (_ & Hleave & _).
  assert (Hrd : exists rho, reader (after [ARead frame_eof]) = RLeaving rho)
    by (eexists; reflexivity).
  destruct Hrd as [rho Hrd].
  destruct (Hleave rho Hrd) as (-> & _).
  split; [exact Hrd | reflexivity].
Defined.

(** C4, as the spec states it, fails: two requests with the STAN
    000123.  When the second is registered the table holds the reply
    channel of the first under that key; afterwards it holds the reply
    channel of the second, the first call is still waiting on its own
    channel, and the peer's reply for 000123 goes to the second call. *)
Lemma second_registration_overwrites :
  let before := after (sent 0 purchase_123 ++
                       [ASend 1%nat purchase_123; APrepare 1%nat; AHandoffRequest 1%nat]) in
  respMap (client before) !! "000123"%string = Some (Chan 0) /\
  sys_step ARegister before = Some (after same_key) /\
  respMap (client (after same_key)) !! "000123"%string = Some (Chan 2) /\
  replyCh <$> (callers (after same_key) !! 0%nat ≫= caller_req) = Some (Chan 0) /\
  replyCh <$> (callers (after same_key) !! 1%nat ≫= caller_req) = Some (Chan 2) /\
  (exists m0 req0 m1 req1,
     let s := after (same_key ++ [AWrite None] ++ replied 1 (reply_to "000123")) in
     callers s !! 0%nat = Some (CSelecting m0 req0) /\
     callers s !! 1%nat = Some (CReturned m1 (Some req1) (Some (reply_to "000123")) None) /\
     respMap (client s) !! "000123"%string = None).
Proof.
  cbv zeta.
  split; [vm_compute; reflexivity |]. split; [vm_compute; reflexivity |].
  split; [vm_compute; reflexivity |]. split; [vm_compute; reflexivity |].
  split; [vm_compute; reflexivity |].
  do 4 eexists.
  split; [vm_compute; reflexivity |]. split; vm_compute; reflexivity.
Qed.

(** C3 at work: the write of the request with STAN 000001 fails.  The
    caller gets the error and [writeLoop] is back at its [range], but
    the table still maps 000001 to the reply channel of the call that
    has returned; the table is as it was before the error was handed
    over.  A later message with that STAN leaves [readLoop] at
    [replyCh <- message] with no call to take it. *)
Theorem failed_write_leaves_entry :
  exists req,
    run write_fails (sys_init addr0) = Some (after write_fails) /\
    callers (after write_fails) =
      {[ 0%nat := CReturned (mkMsg "0200" "000001") (Some req) None (Some epipe) ]} /\
    writer (after write_fails) = WReceiving /\
    req_requestID req = "000001"%string /\
    respMap (client (after write_fails)) !! "000001"%string = Some (replyCh req) /\
    (exists rho, reader (after (write_fails ++ [ARead (frame_of (reply_to "000001"))]))
                 = RReplying rho (replyCh req) (reply_to "000001") "000001") /\
    forall i, sys_step (AHandoffReply i)
                (after (write_fails ++ [ARead (frame_of (reply_to "000001"))])) = None.
Proof.
  eexists.
  assert (Hcs : callers (after write_fails) =
      {[ 0%nat := CReturned (mkMsg "0200" "000001") (Some _) None (Some epipe) ]})
    by (vm_compute; reflexivity).
  split; [vm_compute; reflexivity |].
  split; [exact Hcs |].
  split; [reflexivity |]. split; [reflexivity |]. split; [vm_compute; reflexivity |].
  split; [eexists; vm_compute; reflexivity |].
  intros i.
  assert (Hcs' : callers (after (write_fails ++ [ARead (frame_of (reply_to "000001"))]))
                 = callers (after write_fails)) by (vm_compute; reflexivity).
  cbn [sys_step]. rewrite Hcs', Hcs.
  destruct (decide (i = 0%nat)) as [-> | Hne].
  - rewrite lookup_singleton_eq. reflexivity.
  - rewrite lookup_singleton_ne by congruence. reflexivity.
Qed.

(** C8 at work: a request with STAN 000001 is out and the peer sends a
    message with STAN 000009.  [readLoop] goes on to its next
    iteration and the system is exactly as it was: the message is
    nowhere, nothing was printed. *)
Theorem unmatched_message_leaves_no_trace :
  let s := after (sent 0 purchase) in
  let f := frame_of (reply_to "000009") in
  Unpack (raw f) = (reply_to "000009", None) /\
  requestID (reply_to "000009") = ("000009"%string, None) /\
  respMap (client s) !! "000009"%string = None /\
  readLoop_body (client s) readLoop_entry f = ReadNext readLoop_entry /\
  sys_step (ARead f) s = Some s /\
  stderr s = [].
Proof.
  cbv zeta.
  assert (Hrd : reader (after (sent 0 purchase)) = RReading readLoop_entry)
    by reflexivity.
  assert (Hk : respMap (client (after (sent 0 purchase))) !! "000009"%string = None)
    by (vm_compute; reflexivity).
  destruct (readLoop_unmatched (after (sent 0 purchase)) readLoop_entry
              (frame_of (reply_to "000009")) (reply_to "000009") "000009"
              Hrd eq_refl eq_refl eq_refl eq_refl Hk) as [Hbody Hstep].
  split; [reflexivity |]. split; [reflexivity |]. split; [exact Hk |].
  split; [exact Hbody |]. split; [exact Hstep | reflexivity].
Qed.

(** C1 at work: a request with STAN 000001 is out, [Close] is called,
    the read fails and [readLoop] runs to its end.  The table still
    holds the entry, no error was handed to the call, and whatever
    happens from then on the call stays in its [select] and the entry
    stays in the table. *)
Theorem pending_Send_hangs_after_shutdown :
  exists message req,
    run close_while_pending (sys_init addr0) = Some (after close_while_pending) /\
    closing (client (after close_while_pending)) = true /\
    reader (after close_while_pending) = RReturned /\
    writer (after close_while_pending) = WReceiving /\
    callers (after close_while_pending) !! 0%nat = Some (CSelecting message req) /\
    req_requestID req = "000001"%string /\
    respMap (client (after close_while_pending)) !! "000001"%string = Some (replyCh req) /\
    forall acts s',
      run acts (after close_while_pending) = Some s' ->
      callers s' !! 0%nat = Some (CSelecting message req) /\
      respMap (client s') !! "000001"%string = Some (replyCh req).
Proof.
  do 2 eexists.
  assert (Hcs : callers (after close_while_pending) =
                {[ 0%nat := CSelecting _ _ ]}) by (vm_compute; reflexivity).
  assert (Hmap : respMap (client (after close_while_pending)) !! "000001"%string
                 = Some (Chan 0)) by (vm_compute; reflexivity).
  split; [vm_compute; reflexivity |].
  split; [reflexivity |]. split; [reflexivity |]. split; [reflexivity |].
  split; [rewrite Hcs; apply lookup_singleton_eq |].
  split; [reflexivity |]. split; [exact Hmap |].
  intros acts s' Hrun.
  eapply abandoned_run in Hrun.
  - destruct Hrun as [(_ & _ & _ & _ & Hi & _) Hsame].
    split; [exact Hi |]. rewrite Hsame. exact Hmap.
  - unfold abandoned. rewrite Hcs.
    split; [reflexivity |]. split; [vm_compute; discriminate |].
    split; [reflexivity |]. split; [reflexivity |].
    split; [apply lookup_singleton_eq |].
    intros j cl Hj Hne. rewrite lookup_singleton_ne in Hj by congruence. discriminate.
Qed.

(** A message without a STAN and with a bad indicator: the STAN 000001
    is spent on a call that fails. *)
Lemma Send_pack_failure_consumes_STAN_witness :
  closing NewClient = false /\
  GetString malformed 11 = (EmptyString, None) /\
  snd (Pack (mkMsg "02" "000001")) = Some (errorString "bad message type indicator") /\
  Send NewClient 0 malformed =
    (set_stan 1 NewClient, 0%nat, mkMsg "02" "000001",
     SendReturn None
       (Some (Errorf "packing message: " (errorString "bad message type indicator")))).
Proof.
  assert (H1 : closing (NewClient (codec := Wire.codec)) = false) by reflexivity.
  assert (H2 : GetString malformed 11 = (EmptyString, None)) by reflexivity.
  assert (H3 : Field malformed 11 (snd (getSTAN NewClient))
               = (mkMsg "02" "000001", None)) by reflexivity.
  assert (H4 : snd (Pack (mkMsg "02" "000001"))
               = Some (errorString "bad message type indicator")) by reflexivity.
  split; [exact H1 |]. split; [exact H2 |]. split; [exact H4 |].
  destruct (Send_pack_failure_consumes_STAN (codec := Wire.codec)
              NewClient 0 malformed _ _ H1 H2 H3 H4) as [Hsend _].
  exact Hsend.
Defined.

(** A message without a STAN on a new client goes out under 000001. *)
Lemma Send_key_never_empty_witness :
  (forall m v m', Field m 11 v = (m', None) -> GetString m' 11 = (v, None)) /\
  GetString purchase 11 = (EmptyString, None) /\
  exists c' next' message' req,
    Send NewClient 0 purchase = (c', next', message', SendPublish req) /\
    req_requestID req = "000001"%string.
Proof.
  assert (Hlaw : forall m v m', Field m 11 v = (m', None) ->
                                GetString m' 11 = (v, None)).
  { intros m v m' H. cbn in H. injection H as <-. reflexivity. }
  assert (Hget : GetString purchase 11 = (EmptyString, None)) by reflexivity.
  split; [exact Hlaw |]. split; [exact Hget |].
  do 4 eexists.
  assert (Hsend : Send (codec := Wire.codec) NewClient 0 purchase = (_, _, _, SendPublish _))
    by (vm_compute; reflexivity).
  split; [exact Hsend |].
  destruct (Send_key_never_empty (codec := Wire.codec)
              _ _ _ _ _ _ _ _ Hlaw Hget Hsend) as (_ & Hkey & _).
  rewrite Hkey. reflexivity.
Defined.

(** Close, then a Connect that succeeds: the client stays closed. *)
Lemma Connect_does_not_reopen_witness :
  closing (fst (Close NewClient None)) = true /\
  conn (fst (fst (Connect (fst (Close NewClient None)) addr0
                    (fun a => inr (TCPConn a))))) = Some (TCPConn addr0) /\
  snd (Send (fst (fst (Connect (fst (Close NewClient None)) addr0
                         (fun a => inr (TCPConn a))))) 0 purchase)
  = SendReturn None (Some ErrConnectionClosed).
Proof.
  assert (H : closing (fst (Close (codec := Wire.codec) NewClient None)) = true)
    by reflexivity.
  split; [exact H |]. split; [reflexivity |].
  destruct (Connect_does_not_reopen (codec := Wire.codec)
              (fst (Close NewClient None)) addr0 (fun a => inr (TCPConn a))
              0 purchase H) as (_ & _ & _ & Hsend).
  rewrite Hsend. reflexivity.
Defined.


(** Two calls with the same STAN still have channels of their own. *)
Lemma channels_are_private_witness :
  run same_key (sys_init addr0) = Some (after same_key) /\
  exists m0 req0 m1 req1,
    callers (after same_key) !! 0%nat = Some (CSelecting m0 req0) /\
    callers (after same_key) !! 1%nat = Some (CSelecting m1 req1) /\
    req_requestID req0 = req_requestID req1 /\
    replyCh req0 <> replyCh req1 /\ errCh req0 <> errCh req1.
Proof.
  assert (Hrun : run same_key (sys_init addr0) = Some (after same_key))
    by (vm_compute; reflexivity).
  split; [exact Hrun |].
  do 4 eexists.
  assert (H0 : callers (after same_key) !! 0%nat = Some (CSelecting _ _))
    by (vm_compute; reflexivity).
  assert (H1 : callers (after same_key) !! 1%nat = Some (CSelecting _ _))
    by (vm_compute; reflexivity).
  split; [exact H0 |]. split; [exact H1 |]. split; [reflexivity |].
  apply (channels_are_private addr0 _ _ 0 1 _ _ _ _ Hrun H0 H1 eq_refl eq_refl).
  discriminate.
Defined.


(** The frame of the first request of a new client. *)
Lemma outbound_frames_are_whole_witness :
  run (sent 0 purchase) (sys_init addr0) = Some (after (sent 0 purchase)) /\
  In (fst (Wire.header 10) ++ fst (Wire.pack (mkMsg "0200" "000001")))
     (outbound (after (sent 0 purchase))) /\
  exists i cl req,
    callers (after (sent 0 purchase)) !! i = Some cl /\
    caller_req cl = Some req /\
    fst (Wire.header 10) ++ fst (Wire.pack (mkMsg "0200" "000001")) = rawMessage req.
Proof.
  assert (Hrun : run (sent 0 purchase) (sys_init addr0)
                 = Some (after (sent 0 purchase))) by (vm_compute; reflexivity).
  assert (Hin : In (fst (Wire.header 10) ++ fst (Wire.pack (mkMsg "0200" "000001")))
                   (outbound (after (sent 0 purchase))))
    by (left; vm_compute; reflexivity).
  split; [exact Hrun |]. split; [exact Hin |].
  destruct (outbound_frames_are_whole addr0 _ _ Hrun _ Hin)
    as (i & cl & req & packed & header & Hi & Hr & Hid & Hp & Hh & Hf).
  exists i, cl, req. split; [exact Hi |]. split; [exact Hr |].
  pose proof (wellformed_run _ _ _ _ (wellformed_init addr0) Hrun)
    as [_ _ Hreq _ _ _].
  destruct (Hreq _ _ _ Hi Hr) as (n & pk & hd & _ & _ & _ & _ & Hp' & Hh' & Hraw).
  rewrite Hraw, Hf. congruence.
Defined.

(** Calls made after [Close] are refused. *)
Lemma closing_is_permanent_witness :
  closing (client (after [AClose None])) = true /\
  run [ASend 3%nat purchase; ASend 4%nat purchase_123] (after [AClose None])
  = Some (after [AClose None; ASend 3%nat purchase; ASend 4%nat purchase_123]) /\
  closing (client (after [AClose None; ASend 3%nat purchase;
                          ASend 4%nat purchase_123])) = true /\
  refused (CReturned purchase None None (Some ErrConnectionClosed)).
Proof.
  assert (H1 : closing (client (after [AClose None])) = true) by reflexivity.
  assert (H2 : run [ASend 3%nat purchase; ASend 4%nat purchase_123]
                   (after [AClose None])
               = Some (after [AClose None; ASend 3%nat purchase;
                              ASend 4%nat purchase_123]))
    by (vm_compute; reflexivity).
  split; [exact H1 |]. split; [exact H2 |].
  destruct (closing_is_permanent _ _ _ H1 H2) as [Hc Hnew].
  split; [exact Hc |].
  apply (Hnew 3%nat); vm_compute; reflexivity.
Defined.



(** The first exchange of a new client: the request goes out under
    000001 and the peer's 0210 with that STAN comes back. *)
Lemma exchange_completes_witness :
  closing (client (sys_init addr0)) = false /\
  Unpack (raw (frame_of (reply_to "000001"))) = (reply_to "000001", None) /\
  exists s' req,
    run (sent 0 purchase ++ replied 0 (reply_to "000001")) (sys_init addr0) = Some s' /\
    callers s' !! 0%nat =
      Some (CReturned (mkMsg "0200" "000001") (Some req)
                      (Some (reply_to "000001")) None) /\
    respMap (client s') = respMap (client (sys_init addr0)).
Proof.
  split; [reflexivity |]. split; [reflexivity |].
  eassert (Hprep : Send_prepare (client (sys_init addr0)) (nextChan (sys_init addr0))
                     purchase = (_, _, _, SendPublish _))
    by (vm_compute; reflexivity).
  destruct (exchange_completes (codec := Wire.codec)
              (sys_init addr0) 0 purchase _ _ _ _ readLoop_entry
              (frame_of (reply_to "000001")) (reply_to "000001")
              eq_refl eq_refl eq_refl eq_refl Hprep eq_refl eq_refl eq_refl eq_refl)
    as (s' & Hrun & Hcs & _ & Hfree & _).
  exists s'. eexists. split; [exact Hrun |].
  split; [rewrite Hcs; apply lookup_insert_eq |].
  apply Hfree. reflexivity.
Defined.

